(** * Linear calendar: event index and grid layout

    A shallow embedding of the date extractor, the event index builder, the
    grid layout engine and the settings handlers of [src/main.ts], together
    with the part of the host (the ECMAScript [Date] object, [String],
    [padStart], [split], [trim], ...) that these functions run on.

    Conventions.
    - A JavaScript number that holds an integer or NaN is an [option Z]
      ([None] is NaN). The scale factors, which are fractions, are held as
      exact decimal values ([Q]) in the settings record; the arithmetic
      the host does on them is binary64, and is embedded as such on the
      primitive floats ([adjustedScale64]).
    - A JavaScript string is a [string]: a sequence of 8-bit code units.
    - The host's time zone is a constant offset [LocalTZA] (milliseconds),
      a parameter of every function that reads or builds a [Date]: a zone
      without transitions.
    - The moment.js parsers and the metadata cache belong to the host and
      are parameters of the extractor. *)

From Stdlib Require Import ZArith QArith Qround Qabs Lia Lqa Ascii Floats Uint63.
From stdpp Require Import gmap strings list fin_maps pretty.

Local Open Scope Z_scope.

(** ** JavaScript numbers that are integers or NaN *)

Module Num.

Definition number : Type := option Z.

Definition NaN : number := None.

(** [a + b] *)
Definition add (a b : number) : number :=
  match a, b with
  | Some x, Some y => Some (x + y)
  | _, _ => None
  end.

(** [a % b]: the sign of the result is the sign of the dividend, and a zero
    divisor gives NaN. *)
Definition rem (a b : number) : number :=
  match a, b with
  | Some x, Some y => if y =? 0 then None else Some (Z.rem x y)
  | _, _ => None
  end.

(** [a > b]: false as soon as one side is NaN. *)
Definition gt (a b : number) : bool :=
  match a, b with
  | Some x, Some y => y <? x
  | _, _ => false
  end.

(** [String(a)] *)
Definition toString (a : number) : string :=
  match a with
  | Some x => pretty x
  | None => "NaN"
  end.

End Num.

(** ** The ECMAScript time value algorithms (ECMA-262, Date objects) *)

Module ES.

Definition msPerDay : Z := 86400000.

Definition Day (t : Z) : Z := t / msPerDay.

Definition TimeWithinDay (t : Z) : Z := t mod msPerDay.

Definition DaysInYear (y : Z) : Z :=
  if negb (y mod 4 =? 0) then 365
  else if negb (y mod 100 =? 0) then 366
  else if negb (y mod 400 =? 0) then 365
  else 366.

Definition DayFromYear (y : Z) : Z :=
  365 * (y - 1970) + (y - 1969) / 4 - (y - 1901) / 100 + (y - 1601) / 400.

Definition TimeFromYear (y : Z) : Z := msPerDay * DayFromYear y.

(** The year of a day number: ECMA-262 asks for the largest [y] with
    [DayFromYear y <= d]; it is one of the three years around the estimate
    [1970 + d / 365.2425] (see [YearFromDay_spec]). *)
Definition YearFromDay (d : Z) : Z :=
  let y := 1970 + (400 * d) / 146097 in
  if DayFromYear (y + 1) <=? d then y + 1
  else if DayFromYear y <=? d then y
  else y - 1.

Definition YearFromTime (t : Z) : Z := YearFromDay (Day t).

Definition InLeapYear (t : Z) : Z :=
  if DaysInYear (YearFromTime t) =? 366 then 1 else 0.

Definition DayWithinYear (t : Z) : Z := Day t - DayFromYear (YearFromTime t).

Definition MonthFromTime (t : Z) : Z :=
  let d := DayWithinYear t in
  let l := InLeapYear t in
  if d <? 31 then 0
  else if d <? 59 + l then 1
  else if d <? 90 + l then 2
  else if d <? 120 + l then 3
  else if d <? 151 + l then 4
  else if d <? 181 + l then 5
  else if d <? 212 + l then 6
  else if d <? 243 + l then 7
  else if d <? 273 + l then 8
  else if d <? 304 + l then 9
  else if d <? 334 + l then 10
  else 11.

Definition DateFromTime (t : Z) : Z :=
  let d := DayWithinYear t in
  let l := InLeapYear t in
  match MonthFromTime t with
  | 0 => d + 1
  | 1 => d - 30
  | 2 => d - 58 - l
  | 3 => d - 89 - l
  | 4 => d - 119 - l
  | 5 => d - 150 - l
  | 6 => d - 180 - l
  | 7 => d - 211 - l
  | 8 => d - 242 - l
  | 9 => d - 272 - l
  | 10 => d - 303 - l
  | _ => d - 333 - l
  end.

Definition WeekDay (t : Z) : Z := (Day t + 4) mod 7.

(** Days from the start of year [y] to the start of its month [mn]
    ([0 <= mn <= 11]). *)
Definition DaysBeforeMonth (y mn : Z) : Z :=
  let l := if DaysInYear y =? 366 then 1 else 0 in
  match mn with
  | 0 => 0
  | 1 => 31
  | 2 => 59 + l
  | 3 => 90 + l
  | 4 => 120 + l
  | 5 => 151 + l
  | 6 => 181 + l
  | 7 => 212 + l
  | 8 => 243 + l
  | 9 => 273 + l
  | 10 => 304 + l
  | _ => 334 + l
  end.

(** [MakeDay(year, month, date)]: ECMA-262 asks for the day number of a
    time [t] whose year is [ym], whose month is [mn] and whose date is 1
    (see [MakeDay_first]), plus [date - 1]. *)
Definition MakeDay (year month date : Z) : Z :=
  let ym := year + month / 12 in
  let mn := month mod 12 in
  DayFromYear ym + DaysBeforeMonth ym mn + date - 1.

Definition MakeDate (day time : Z) : Z := day * msPerDay + time.

(** The length of month [mn] (0 is January) of year [y] by the Gregorian
    rule, as the specification words it: a leap year is divisible by 4, and
    not by 100 unless also by 400. The code does not use it; [daysInMonth]
    below is compared with it. *)
Definition isLeapYear (y : Z) : bool :=
  (y mod 4 =? 0) && (negb (y mod 100 =? 0) || (y mod 400 =? 0)).

Definition GregorianMonthLength (y mn : Z) : Z :=
  match mn with
  | 1 => if isLeapYear y then 29 else 28
  | 3 | 5 | 8 | 10 => 30
  | _ => 31
  end.

(** [MakeFullYear]: a year from 0 to 99 stands for 1900 + year. *)
Definition MakeFullYear (year : Z) : Z :=
  if (0 <=? year) && (year <=? 99) then 1900 + year else year.

(** [TimeClip]: a time value further than 8.64e15 ms from the epoch is
    NaN. *)
Definition TimeClip (t : Z) : option Z :=
  if Z.abs t <=? 8640000000000000 then Some t else None.

End ES.

(** ** The [Date] object *)

Module JSDate.
Import ES.

(** A [Date] holds a time value: milliseconds since the epoch in UTC, or
    NaN (an invalid date). *)
Record Date : Type := mkDate { timeValue : option Z }.

Global Instance Date_eq_dec : EqDecision Date.
Proof. solve_decision. Defined.

Section LocalTimeZone.
Variable LocalTZA : Z.

Definition LocalTime (t : Z) : Z := t + LocalTZA.

Definition UTC (t : Z) : Z := t - LocalTZA.

(** [new Date(year, month, date)]: the time of day is 00:00:00.000,
    local time. *)
Definition newDate (year month date : Z) : Date :=
  let yr := MakeFullYear year in
  mkDate (TimeClip (UTC (MakeDate (MakeDay yr month date) 0))).

(** [new Date(value)] for a number of milliseconds. *)
Definition newDateOfValue (value : Z) : Date := mkDate (TimeClip value).

Definition getFullYear (d : Date) : Num.number :=
  (λ t, YearFromTime (LocalTime t)) <$> timeValue d.

Definition getMonth (d : Date) : Num.number :=
  (λ t, MonthFromTime (LocalTime t)) <$> timeValue d.

Definition getDate (d : Date) : Num.number :=
  (λ t, DateFromTime (LocalTime t)) <$> timeValue d.

Definition getDay (d : Date) : Num.number :=
  (λ t, WeekDay (LocalTime t)) <$> timeValue d.

End LocalTimeZone.

End JSDate.

(** ** Strings and arrays of the host *)

Module JSString.

(** [s.padStart(targetLength, padString)] *)
Fixpoint padding (k : nat) (padString rest : string) : string :=
  match k with
  | O => ""
  | S k' =>
      match rest with
      | String c r => String c (padding k' padString r)
      | EmptyString =>
          match padString with
          | String c r => String c (padding k' padString r)
          | EmptyString => ""
          end
      end
  end.

Definition padStart (targetLength : nat) (padString s : string) : string :=
  if (targetLength <=? String.length s)%nat then s
  else padding (targetLength - String.length s) padString padString +:+ s.

(** [s.substring(0, n)] *)
Definition substring0 (n : nat) (s : string) : string := String.substring 0 n s.

(** [path.startsWith(folder)] *)
Definition startsWith (s searchString : string) : bool :=
  String.prefix searchString s.

(** [s.split(sep)] for a separator of one character. The accumulator holds
    the current piece, reversed. *)
Fixpoint split_go (sep : ascii) (cur : string) (s : string) : list string :=
  match s with
  | EmptyString => [String.rev cur]
  | String c r =>
      if decide (c = sep) then String.rev cur :: split_go sep "" r
      else split_go sep (String c cur) r
  end.

Definition split (sep : ascii) (s : string) : list string := split_go sep "" s.

(** [pieces.join(sep)] for a separator of one character. *)
Fixpoint join (sep : ascii) (pieces : list string) : string :=
  match pieces with
  | [] => ""
  | [piece] => piece
  | piece :: rest => piece +:+ String sep (join sep rest)
  end.

(** [labels[i]]: [None] is [undefined]. *)
Definition at_index {A : Type} (l : list A) (i : Z) : option A :=
  if i <? 0 then None else l !! Z.to_nat i.

(** White space and line terminators among the 8-bit code units: TAB, LF,
    VT, FF, CR, SP and NBSP. *)
Definition isWhiteSpace (c : ascii) : bool :=
  match c with
  | "009" | "010" | "011" | "012" | "013" | " " | "160" => true
  | _ => false
  end%char.

Fixpoint trimStart (s : string) : string :=
  match s with
  | String c r => if isWhiteSpace c then trimStart r else s
  | EmptyString => ""
  end.

Definition trimEnd (s : string) : string :=
  String.rev (trimStart (String.rev s)).

(** [s.trim()] *)
Definition trim (s : string) : string := trimEnd (trimStart s).

End JSString.

(** [Math.max], [Math.min] and [Math.round] on exact rationals. *)
Module JSMath.
Local Open Scope Q_scope.

Definition max (a b : Q) : Q := if Qle_bool a b then b else a.

Definition min (a b : Q) : Q := if Qle_bool a b then a else b.

(** The nearest integer, a tie going up. *)
Definition round (x : Q) : Q := inject_Z (Qfloor (x + (1 # 2))).

End JSMath.

(** The same three functions on the binary64 numbers the host computes
    with, to run the scale arithmetic as the host does. The two zeros are
    not told apart: [adjustScale] compares with 0.5, 3 and 5, and divides
    what it rounds by 10. *)
Module JSDouble.

(** A small integer as a double. *)
Definition ofZ (z : Z) : float :=
  if z <? 0 then PrimFloat.opp (PrimFloat.of_uint63 (Uint63.of_Z (- z)))
  else PrimFloat.of_uint63 (Uint63.of_Z z).

Definition max (a b : float) : float :=
  if PrimFloat.is_nan a || PrimFloat.is_nan b then PrimFloat.nan
  else if PrimFloat.ltb a b then b else a.

Definition min (a b : float) : float :=
  if PrimFloat.is_nan a || PrimFloat.is_nan b then PrimFloat.nan
  else if PrimFloat.ltb b a then b else a.

(** [Math.round]: the integer nearest to the exact value [m * 2^e] of the
    double, a tie going up; NaN and the infinities are returned as they
    are. *)
Definition round (x : float) : float :=
  match Prim2SF x with
  | S754_finite sign m e =>
      let v := if sign then Z.neg m else Z.pos m in
      if 0 <=? e then x
      else ofZ ((2 * v + 2 ^ (- e)) / 2 ^ (1 - e))
  | _ => x
  end.

(** The exact value [m * 2^e] of a finite double, as a rational (0 for the
    zeros, the infinities and NaN). *)
Definition value (x : float) : Q :=
  match Prim2SF x with
  | S754_finite sign m e =>
      let v := if sign then Z.neg m else Z.pos m in
      if 0 <=? e then inject_Z (v * 2 ^ e)
      else (inject_Z v / inject_Z (2 ^ (- e)))%Q
  | _ => 0%Q
  end.

End JSDouble.

(** ** The plugin: data model *)

Module LinearCalendar.
Import JSDate.
Export JSDate (Date, mkDate, timeValue).

(** A note of the vault, as the host describes it ([TFile]): [stat_ctime]
    is [file.stat.ctime], milliseconds since the epoch. *)
Record TFile : Type := mkTFile {
  path : string;
  basename : string;
  stat_ctime : Z
}.

Global Instance TFile_eq_dec : EqDecision TFile.
Proof. solve_decision. Defined.

Record CalendarEvent : Type := mkCalendarEvent {
  title : string;
  file : TFile;
  startDate : Date;
  endDate : option Date;
  color : option string
}.

Global Instance CalendarEvent_eq_dec : EqDecision CalendarEvent.
Proof. solve_decision. Defined.

(** A frontmatter value ([unknown] in the source). [VObject] stands for
    every object that is not a [Date] (arrays, nested maps). *)
Inductive JSValue : Type :=
| VUndefined
| VNull
| VBool (b : bool)
| VNumber (n : Num.number)
| VString (s : string)
| VDate (d : Date)
| VObject.

(** The condition of [if (value)]. *)
Definition truthy (v : JSValue) : bool :=
  match v with
  | VUndefined | VNull => false
  | VBool b => b
  | VNumber (Some n) => negb (n =? 0)
  | VNumber None => false
  | VString s => negb (String.eqb s "")
  | VDate _ | VObject => true
  end.

(** [frontmatter[field]]: a missing key reads as [undefined]. *)
Definition property (o : gmap string JSValue) (field : string) : JSValue :=
  default VUndefined (o !! field).

Record CachedMetadata : Type := mkCachedMetadata {
  frontmatter : option (gmap string JSValue)
}.

Record LinearCalendarSettings : Type := mkSettings {
  dailyNotesFolder : string;
  dailyNoteFormat : string;
  dateFields : list string;
  showFileCreationDates : bool;
  year : Z;
  weekdayLabels : list string;
  monthLabels : list string;
  scaleX : Q;
  scaleY : Q;
  fontScale : Q;
  defaultScaleX : Q;
  defaultScaleY : Q;
  defaultFontScale : Q
}.

(** [DEFAULT_SETTINGS]; [currentYear] is [new Date().getFullYear()]. *)
Definition DEFAULT_SETTINGS (currentYear : Z) : LinearCalendarSettings :=
  {| dailyNotesFolder := "";
     dailyNoteFormat := "YYYY-MM-DD";
     dateFields := ["date"; "created"; "due"];
     showFileCreationDates := true;
     year := currentYear;
     weekdayLabels := ["M"; "T"; "W"; "T"; "F"; "S"; "S"];
     monthLabels := ["Jan"; "Feb"; "Mar"; "Apr"; "May"; "Jun";
                     "Jul"; "Aug"; "Sep"; "Oct"; "Nov"; "Dec"];
     scaleX := 1; scaleY := 1; fontScale := 1;
     defaultScaleX := 1; defaultScaleY := 1; defaultFontScale := 1 |}.

(** What the plugin reads from its host: the time zone, the two moment.js
    parsers ([None] when [isValid()] is false, else [toDate()]) and the
    metadata cache. The time zone is one offset from UTC, in milliseconds,
    the same at every instant: a host whose zone has no transitions. *)
Record Host : Type := mkHost {
  LocalTZA : Z;
  (* moment(input, format, true) *)
  momentStrict : string → string → option Date;
  (* moment(input) *)
  momentParse : string → option Date;
  (* app.metadataCache.getFileCache(file) *)
  getFileCache : TFile → option CachedMetadata
}.

(** The plugin object: its settings and what [saveData] last wrote. *)
Record Plugin : Type := mkPlugin {
  settings : LinearCalendarSettings;
  savedData : option LinearCalendarSettings
}.

Definition saveSettings (p : Plugin) : Plugin :=
  {| settings := settings p; savedData := Some (settings p) |}.

(** A node of the display tree: [createDiv({cls, attr})], [setText] and the
    nodes created under it. Event listeners are left out. *)
#[warnings="-register-all"]
Inductive Element : Type :=
| El (cls : string) (attr : list (string * string)) (text : option string)
     (children : list Element).

Definition el_cls (e : Element) : string := let 'El c _ _ _ := e in c.
Definition el_text (e : Element) : option string := let 'El _ _ t _ := e in t.
Definition el_children (e : Element) : list Element := let 'El _ _ _ k := e in k.

(** *** The shape the specification gives the date key *)

Definition isDigit (c : ascii) : bool :=
  match Ascii.is_nat c with Some _ => true | None => false end.

Fixpoint allDigits (str : string) : bool :=
  match str with
  | EmptyString => true
  | String c r => isDigit c && allDigits r
  end.

(** Four digits, a dash, two digits, a dash, two digits. *)
Definition isPaddedKey (key : string) : bool :=
  (String.length key =? 10)%nat
  && allDigits (String.substring 0 4 key)
  && String.eqb (String.substring 4 1 key) "-"
  && allDigits (String.substring 5 2 key)
  && String.eqb (String.substring 7 1 key) "-"
  && allDigits (String.substring 8 2 key).

(** The two decimal digits of a number from 0 to 99. *)
Definition twoDigits (n : Z) : string :=
  String (pretty_N_char (Z.to_N (n / 10)))
    (String (pretty_N_char (Z.to_N (n mod 10))) "").

(** ** The view: extractor, index builder, layout engine *)

Section View.
Variable host : Host.
Variable s : LinearCalendarSettings.

Definition parseDailyNoteDate (f : TFile) : option Date :=
  let folder := dailyNotesFolder s in
  if negb (String.eqb folder "") && negb (JSString.startsWith (path f) folder)
  then None
  else
    match momentStrict host (basename f) (dailyNoteFormat s) with
    | Some parsed => Some parsed
    | None => None
    end.

Definition parseDate (value : JSValue) : option Date :=
  match value with
  | VString str =>
      match momentParse host str with
      | Some parsed => Some parsed
      | None => None
      end
  | VDate d => Some d
  | _ => None
  end.

(** One turn of the loop over [settings.dateFields]. *)
Definition pushFieldDate (fm : gmap string JSValue) (dates : list Date)
    (field : string) : list Date :=
  let value := property fm field in
  if truthy value then
    match parseDate value with
    | Some parsed => dates ++ [parsed]
    | None => dates
    end
  else dates.

Definition extractDatesFromFile (f : TFile) : list Date :=
  let dates := [] in
  let dates :=
    match parseDailyNoteDate f with
    | Some dailyDate => dates ++ [dailyDate]
    | None => dates
    end in
  let dates :=
    match getFileCache host f with
    | Some cache =>
        match frontmatter cache with
        | Some fm => fold_left (pushFieldDate fm) (dateFields s) dates
        | None => dates
        end
    | None => dates
    end in
  if showFileCreationDates s && (length dates =? 0)%nat
  then dates ++ [newDateOfValue (stat_ctime f)]
  else dates.

Definition dateKey (date : Date) : string :=
  Num.toString (getFullYear (LocalTZA host) date) +:+ "-" +:+
  JSString.padStart 2 "0"
    (Num.toString (Num.add (getMonth (LocalTZA host) date) (Some 1))) +:+ "-" +:+
  JSString.padStart 2 "0" (Num.toString (getDate (LocalTZA host) date)).

(** The body of the inner loop of [loadEvents]: [has], [set], then
    [get(key)?.push(...)]. *)
Definition pushEvent (f : TFile) (events : gmap string (list CalendarEvent))
    (date : Date) : gmap string (list CalendarEvent) :=
  let key := dateKey date in
  let events :=
    if decide (is_Some (events !! key)) then events else <[key := []]> events in
  match events !! key with
  | Some l =>
      <[key := l ++ [ {| title := basename f; file := f; startDate := date;
                         endDate := None; color := None |} ] ]> events
  | None => events
  end.

(** [loadEvents], from the cleared map, over [vault.getMarkdownFiles()]. *)
Definition loadEvents (files : list TFile) : gmap string (list CalendarEvent) :=
  fold_left
    (λ events f, fold_left (pushEvent f) (extractDatesFromFile f) events)
    files ∅.

(** [(firstDay.getDay() + 6) % 7] for [firstDay = new Date(year, month, 1)]. *)
Definition monthOffset (year month : Z) : Num.number :=
  let firstDay := newDate (LocalTZA host) year month 1 in
  Num.rem (Num.add (getDay (LocalTZA host) firstDay) (Some 6)) (Some 7).

(** [new Date(year, month + 1, 0).getDate()] *)
Definition daysInMonth (year month : Z) : Num.number :=
  getDate (LocalTZA host) (newDate (LocalTZA host) year (month + 1) 0).

(** [offset + daysInMonth] *)
Definition endColumn (year month : Z) : Num.number :=
  Num.add (monthOffset year month) (daysInMonth year month).

Definition calculateMaxColumns (year : Z) : Num.number :=
  fold_left
    (λ maxEndColumn month,
       if Num.gt (endColumn year month) maxEndColumn
       then endColumn year month
       else maxEndColumn)
    (seqZ 0 12) (Some 0).

(** *** The same, as the specification words it *)

(** Step 2 of the extractor: every configured field, in order, whose
    value is non-empty and parses gives one date. *)
Definition frontmatterDates (f : TFile) : list Date :=
  match getFileCache host f with
  | Some cache =>
      match frontmatter cache with
      | Some fm =>
          omap (λ field,
                  let value := property fm field in
                  if truthy value then parseDate value else None)
               (dateFields s)
      | None => []
      end
  | None => []
  end.

(** Steps 1 and 2 of the extractor. *)
Definition sourceDates (f : TFile) : list Date :=
  option_list (parseDailyNoteDate f) ++ frontmatterDates f.

Definition eventOf (f : TFile) (date : Date) : CalendarEvent :=
  {| title := basename f; file := f; startDate := date;
     endDate := None; color := None |}.

(** Every event of the vault, in the order of the notes and, for one
    note, of its dates. *)
Definition allEvents (files : list TFile) : list CalendarEvent :=
  f ← files; eventOf f <$> extractDatesFromFile f.

(** The events of a list whose start date has the key [key]. *)
Definition eventsWithKey (key : string) (evs : list CalendarEvent)
    : list CalendarEvent :=
  filter (λ e, dateKey (startDate e) = key) evs.

(** What the index holds under a key when it was built from the events
    [evs]: their subsequence with that key, and no entry when there is
    none. *)
Definition grouped (evs : list CalendarEvent) (key : string)
    : option (list CalendarEvent) :=
  match eventsWithKey key evs with
  | [] => None
  | l => Some l
  end.

End View.

(** ** The view: one month row of the grid *)

Section Render.
Variable host : Host.
Variable s : LinearCalendarSettings.
Variable events : gmap string (list CalendarEvent).
(** [new Date()] at the time of the redraw. *)
Variable today : Date.

(** [dayIndex === 5 || dayIndex === 6] for [dayIndex = col % 7]. *)
Definition isWeekend (col : Num.number) : bool :=
  let dayIndex := Num.rem col (Some 7) in
  bool_decide (dayIndex = Some 5) || bool_decide (dayIndex = Some 6).

Definition weekendClass (col : Num.number) : string :=
  if isWeekend col then "linear-calendar-weekend" else "".

(** Lines 545 to 553 of [renderMonth]: the element created for one
    event. *)
Definition pill (event : CalendarEvent) : Element :=
  El "linear-calendar-event"
     [("aria-label", "Open " +:+ title event); ("tabindex", "0");
      ("role", "button")]
     (Some (JSString.substring0 10 (title event))) [].

(** Lines 542 to 570 of [renderMonth]: what is created under a day cell
    for its events. *)
Definition renderDayEvents (dayEvents : list CalendarEvent) : list Element :=
  if (0 <? length dayEvents)%nat then
    let pills := pill <$> take 3 dayEvents in
    let more :=
      if (3 <? length dayEvents)%nat then
        [El "linear-calendar-more" []
            (Some ("+" +:+ pretty (Z.of_nat (length dayEvents) - 3))) []]
      else [] in
    [El "linear-calendar-events" [] None (pills ++ more)]
  else [].

(** The body of the loop over the days of the month. *)
Definition renderDayCell (year month : Z) (offset : Num.number)
    (isCurrentMonth : bool) (day : Z) : Element :=
  let col := Num.add (Num.add offset (Some day)) (Some (-1)) in
  let isToday :=
    isCurrentMonth && bool_decide (Some day = getDate (LocalTZA host) today) in
  let date := newDate (LocalTZA host) year month day in
  let key := dateKey host date in
  let dayEvents := default [] (events !! key) in
  El ("linear-calendar-cell " +:+ weekendClass col +:+ " " +:+
      (if isToday then "linear-calendar-today" else "") +:+ " " +:+
      (if (0 <? length dayEvents)%nat then "linear-calendar-has-events" else ""))
     [("data-date", key);
      ("aria-label",
       default "undefined" (JSString.at_index (monthLabels s) month) +:+ " " +:+
       pretty day +:+ ", " +:+ pretty year);
      ("tabindex", "0"); ("role", "button")]
     None
     (El "linear-calendar-day-number" [] (Some (pretty day)) []
      :: renderDayEvents dayEvents).

Definition emptyCell (col : Z) : Element :=
  El ("linear-calendar-cell linear-calendar-empty " +:+ weekendClass (Some col))
     [] None [].

(** The values of [col] in [for (col = from; col < bound; col++)]: none
    when a bound is NaN. *)
Definition columns (from bound : Num.number) : list Z :=
  match from, bound with
  | Some a, Some b => seqZ a (b - a)
  | _, _ => []
  end.

Definition renderMonth (year month : Z) (maxColumns : Num.number) : Element :=
  let offset := monthOffset host year month in
  let days := daysInMonth host year month in
  let isCurrentYear :=
    bool_decide (Some year = getFullYear (LocalTZA host) today) in
  let isCurrentMonth :=
    isCurrentYear && bool_decide (Some month = getMonth (LocalTZA host) today) in
  let leading := emptyCell <$> columns (Some 0) offset in
  let cells :=
    renderDayCell year month offset isCurrentMonth
    <$> columns (Some 1) (Num.add days (Some 1)) in
  let totalCells := Num.add offset days in
  let trailing := emptyCell <$> columns totalCells maxColumns in
  El "linear-calendar-row" [] None
     [El "linear-calendar-month-label" [] (JSString.at_index (monthLabels s) month) [];
      El "linear-calendar-days-container" [] None
         (leading ++ cells ++ trailing)].

End Render.

(** ** Scale controls *)

Inductive Axis : Type := AxisX | AxisY | AxisFont.

Definition getScale (axis : Axis) (s : LinearCalendarSettings) : Q :=
  match axis with
  | AxisX => scaleX s
  | AxisY => scaleY s
  | AxisFont => fontScale s
  end.

Definition setScale (axis : Axis) (v : Q) (s : LinearCalendarSettings)
    : LinearCalendarSettings :=
  match axis with
  | AxisX =>
      mkSettings (dailyNotesFolder s) (dailyNoteFormat s) (dateFields s)
        (showFileCreationDates s) (year s) (weekdayLabels s) (monthLabels s)
        v (scaleY s) (fontScale s)
        (defaultScaleX s) (defaultScaleY s) (defaultFontScale s)
  | AxisY =>
      mkSettings (dailyNotesFolder s) (dailyNoteFormat s) (dateFields s)
        (showFileCreationDates s) (year s) (weekdayLabels s) (monthLabels s)
        (scaleX s) v (fontScale s)
        (defaultScaleX s) (defaultScaleY s) (defaultFontScale s)
  | AxisFont =>
      mkSettings (dailyNotesFolder s) (dailyNoteFormat s) (dateFields s)
        (showFileCreationDates s) (year s) (weekdayLabels s) (monthLabels s)
        (scaleX s) (scaleY s) v
        (defaultScaleX s) (defaultScaleY s) (defaultFontScale s)
  end.

(** [adjustScale(axis, delta)] on the settings, the scales read as exact
    decimal values; the redraw that follows reads the settings and does
    not change them. The host holds the scales in binary64 and rounds
    after every operation: that arithmetic is [adjustedScale64] below. The
    two give the same tenth when the scale and the step are tenths; where
    the exact sum is a decimal tie, as for 1.15 - 0.1, the rounded sum
    decides on the host. *)
Definition adjustScale (axis : Axis) (delta : Q) (p : Plugin) : Plugin :=
  let min : Q := (match axis with AxisFont => 1 # 2 | _ => 1 # 2 end)%Q in
  let max : Q := (match axis with AxisFont => 3 | _ => 5 end)%Q in
  let newScale :=
    JSMath.max min (JSMath.min max (getScale axis (settings p) + delta))%Q in
  saveSettings
    {| settings :=
         setScale axis (JSMath.round (newScale * 10) / 10)%Q (settings p);
       savedData := savedData p |}.

(** The arithmetic of [adjustScale] as the host computes it, in binary64:
    the value stored in [settings[key]] when the scale of the axis is
    [scale]. *)
Definition adjustedScale64 (axis : Axis) (scale delta : float) : float :=
  let min := (JSDouble.ofZ 5 / JSDouble.ofZ 10)%float in
  let max := match axis with AxisFont => JSDouble.ofZ 3 | _ => JSDouble.ofZ 5 end in
  let newScale := JSDouble.max min (JSDouble.min max (scale + delta)%float) in
  (JSDouble.round (newScale * JSDouble.ofZ 10) / JSDouble.ofZ 10)%float.

(** ** Settings tab: the label inputs *)

(** [value.split(",").map((s) => s.trim()).filter((s) => s.length > 0)] *)
Definition parseLabels (value : string) : list string :=
  filter (λ l, (0 < String.length l)%nat)
         (JSString.trim <$> JSString.split "," value).

Definition setWeekdayLabels (labels : list string) (s : LinearCalendarSettings)
    : LinearCalendarSettings :=
  mkSettings (dailyNotesFolder s) (dailyNoteFormat s) (dateFields s)
    (showFileCreationDates s) (year s) labels (monthLabels s)
    (scaleX s) (scaleY s) (fontScale s)
    (defaultScaleX s) (defaultScaleY s) (defaultFontScale s).

Definition setMonthLabels (labels : list string) (s : LinearCalendarSettings)
    : LinearCalendarSettings :=
  mkSettings (dailyNotesFolder s) (dailyNoteFormat s) (dateFields s)
    (showFileCreationDates s) (year s) (weekdayLabels s) labels
    (scaleX s) (scaleY s) (fontScale s)
    (defaultScaleX s) (defaultScaleY s) (defaultFontScale s).

(** The [onChange] handler of the "Weekday labels" input. *)
Definition onChangeWeekdayLabels (value : string) (p : Plugin) : Plugin :=
  let labels := parseLabels value in
  if (length labels =? 7)%nat then
    saveSettings
      {| settings := setWeekdayLabels labels (settings p);
         savedData := savedData p |}
  else p.

(** The [onChange] handler of the "Month labels" input. *)
Definition onChangeMonthLabels (value : string) (p : Plugin) : Plugin :=
  let labels := parseLabels value in
  if (length labels =? 12)%nat then
    saveSettings
      {| settings := setMonthLabels labels (settings p);
         savedData := savedData p |}
  else p.

(** ** The weekday header and the rows of the grid *)

(** One turn of the loop of [renderWeekdayHeader]. *)
Definition headerCell (labels : list string) (col : Z) : Element :=
  El ("linear-calendar-header-cell " +:+ weekendClass (Some col)) []
     (JSString.at_index labels (Z.rem col 7)) [].

Definition renderWeekdayHeader (maxColumns : Num.number) (labels : list string)
    : Element :=
  El "linear-calendar-row linear-calendar-header-row" [] None
     (El "linear-calendar-month-label" [] None []
      :: (headerCell labels <$> columns (Some 0) maxColumns)).

(** Lines 261 and 277 to 283 of [render]: what is created under the grid,
    the header row and the twelve month rows. *)
Definition renderGridRows (host : Host) (s : LinearCalendarSettings)
    (events : gmap string (list CalendarEvent)) (today : Date) : list Element :=
  let maxColumns := calculateMaxColumns host (year s) in
  renderWeekdayHeader maxColumns (weekdayLabels s)
  :: ((λ month, renderMonth host s events today (year s) month maxColumns)
      <$> seqZ 0 12).

(** The cells of a month row: the children of its days container. *)
Definition monthCells (row : Element) : list Element :=
  match el_children row with
  | [_; container] => el_children container
  | _ => []
  end.

(** ** The other controls of the view *)

Global Instance Axis_eq_dec : EqDecision Axis.
Proof. solve_decision. Defined.

Definition setYear (y : Z) (s : LinearCalendarSettings) : LinearCalendarSettings :=
  mkSettings (dailyNotesFolder s) (dailyNoteFormat s) (dateFields s)
    (showFileCreationDates s) y (weekdayLabels s) (monthLabels s)
    (scaleX s) (scaleY s) (fontScale s)
    (defaultScaleX s) (defaultScaleY s) (defaultFontScale s).

(** The click handlers of [renderYearSelector]; [currentYear] is the year
    the selector was drawn for. *)
Definition onPreviousYear (currentYear : Z) (p : Plugin) : Plugin :=
  saveSettings {| settings := setYear (currentYear - 1) (settings p);
                  savedData := savedData p |}.

Definition onNextYear (currentYear : Z) (p : Plugin) : Plugin :=
  saveSettings {| settings := setYear (currentYear + 1) (settings p);
                  savedData := savedData p |}.

(** [thisYear] is [new Date().getFullYear()] at the time of the click. *)
Definition onToday (thisYear : Z) (p : Plugin) : Plugin :=
  saveSettings {| settings := setYear thisYear (settings p);
                  savedData := savedData p |}.

(** The click handler of the reset button. *)
Definition onReset (p : Plugin) : Plugin :=
  let s := settings p in
  saveSettings
    {| settings :=
         mkSettings (dailyNotesFolder s) (dailyNoteFormat s) (dateFields s)
           (showFileCreationDates s) (year s) (weekdayLabels s) (monthLabels s)
           (defaultScaleX s) (defaultScaleY s) (defaultFontScale s)
           (defaultScaleX s) (defaultScaleY s) (defaultFontScale s);
       savedData := savedData p |}.

(** The wheel handler of [render]; [deltaYPositive] is [e.deltaY > 0]. *)
Definition onWheel (ctrlKey metaKey shiftKey deltaYPositive : bool) (p : Plugin)
    : Plugin :=
  if ctrlKey || metaKey then
    let delta := (if deltaYPositive then - (1 # 10) else 1 # 10)%Q in
    if shiftKey then adjustScale AxisY delta p else adjustScale AxisX delta p
  else p.

(** ** Settings tab: the other inputs *)

(** [labels.join(", ")], the text the tab shows for a list. *)
Fixpoint joinWith (sep : string) (pieces : list string) : string :=
  match pieces with
  | [] => ""
  | [piece] => piece
  | piece :: rest => piece +:+ sep +:+ joinWith sep rest
  end.

Definition displayList (labels : list string) : string := joinWith ", " labels.

Definition onChangeDailyNotesFolder (value : string) (p : Plugin) : Plugin :=
  let s := settings p in
  saveSettings
    {| settings :=
         mkSettings value (dailyNoteFormat s) (dateFields s)
           (showFileCreationDates s) (year s) (weekdayLabels s) (monthLabels s)
           (scaleX s) (scaleY s) (fontScale s)
           (defaultScaleX s) (defaultScaleY s) (defaultFontScale s);
       savedData := savedData p |}.

Definition onChangeDailyNoteFormat (value : string) (p : Plugin) : Plugin :=
  let s := settings p in
  saveSettings
    {| settings :=
         mkSettings (dailyNotesFolder s) value (dateFields s)
           (showFileCreationDates s) (year s) (weekdayLabels s) (monthLabels s)
           (scaleX s) (scaleY s) (fontScale s)
           (defaultScaleX s) (defaultScaleY s) (defaultFontScale s);
       savedData := savedData p |}.

(** The "Date fields" input: the list is replaced on every change. *)
Definition onChangeDateFields (value : string) (p : Plugin) : Plugin :=
  let s := settings p in
  saveSettings
    {| settings :=
         mkSettings (dailyNotesFolder s) (dailyNoteFormat s) (parseLabels value)
           (showFileCreationDates s) (year s) (weekdayLabels s) (monthLabels s)
           (scaleX s) (scaleY s) (fontScale s)
           (defaultScaleX s) (defaultScaleY s) (defaultFontScale s);
       savedData := savedData p |}.

Definition onChangeShowFileCreationDates (value : bool) (p : Plugin) : Plugin :=
  let s := settings p in
  saveSettings
    {| settings :=
         mkSettings (dailyNotesFolder s) (dailyNoteFormat s) (dateFields s)
           value (year s) (weekdayLabels s) (monthLabels s)
           (scaleX s) (scaleY s) (fontScale s)
           (defaultScaleX s) (defaultScaleY s) (defaultFontScale s);
       savedData := savedData p |}.

(** The decimal digits at the start of a string, as a number; [acc] is
    [None] as long as no digit was read. *)
Fixpoint digitPrefix (str : string) (acc : option Z) : option Z :=
  match str with
  | String c r =>
      match Ascii.is_nat c with
      | Some d => digitPrefix r (Some (10 * default 0 acc + Z.of_nat d))
      | None => acc
      end
  | EmptyString => acc
  end.

(** [parseInt(value, 10)]: leading white space is skipped, a sign is read,
    then the digits up to the first character that is not one; NaN when
    there is no digit. *)
Definition parseInt10 (value : string) : Num.number :=
  match JSString.trimStart value with
  | String "-" r => Z.opp <$> digitPrefix r None
  | String "+" r => digitPrefix r None
  | str => digitPrefix str None
  end.

Definition setDefaultScale (axis : Axis) (v : Q) (s : LinearCalendarSettings)
    : LinearCalendarSettings :=
  match axis with
  | AxisX =>
      mkSettings (dailyNotesFolder s) (dailyNoteFormat s) (dateFields s)
        (showFileCreationDates s) (year s) (weekdayLabels s) (monthLabels s)
        (scaleX s) (scaleY s) (fontScale s)
        v (defaultScaleY s) (defaultFontScale s)
  | AxisY =>
      mkSettings (dailyNotesFolder s) (dailyNoteFormat s) (dateFields s)
        (showFileCreationDates s) (year s) (weekdayLabels s) (monthLabels s)
        (scaleX s) (scaleY s) (fontScale s)
        (defaultScaleX s) v (defaultFontScale s)
  | AxisFont =>
      mkSettings (dailyNotesFolder s) (dailyNoteFormat s) (dateFields s)
        (showFileCreationDates s) (year s) (weekdayLabels s) (monthLabels s)
        (scaleX s) (scaleY s) (fontScale s)
        (defaultScaleX s) (defaultScaleY s) v
  end.

Definition getDefaultScale (axis : Axis) (s : LinearCalendarSettings) : Q :=
  match axis with
  | AxisX => defaultScaleX s
  | AxisY => defaultScaleY s
  | AxisFont => defaultFontScale s
  end.

(** The largest percentage a default size input accepts. *)
Definition maxPercent (axis : Axis) : Z :=
  match axis with AxisFont => 300 | _ => 500 end.

(** The [onChange] handlers of the three "Default ... scale" inputs. *)
Definition onChangeDefaultScale (axis : Axis) (value : string) (p : Plugin)
    : Plugin :=
  match parseInt10 value with
  | Some num =>
      if (50 <=? num) && (num <=? maxPercent axis) then
        saveSettings
          {| settings := setDefaultScale axis (inject_Z num / 100)%Q (settings p);
             savedData := savedData p |}
      else p
  | None => p
  end.

(** [String(Math.round(scale * 100))], the text a default size input
    shows. *)
Definition displayPercent (scale : Q) : string :=
  pretty (Qfloor (scale * 100 + (1 # 2))%Q).

(** Every action of the user on the view and on the settings tab that
    changes the settings. *)
Inductive Action : Type :=
| AdjustScale (axis : Axis) (delta : Q)
| Wheel (ctrlKey metaKey shiftKey deltaYPositive : bool)
| Reset
| PreviousYear (currentYear : Z)
| NextYear (currentYear : Z)
| Today (thisYear : Z)
| ChangeDailyNotesFolder (value : string)
| ChangeDailyNoteFormat (value : string)
| ChangeDateFields (value : string)
| ChangeShowFileCreationDates (value : bool)
| ChangeWeekdayLabels (value : string)
| ChangeMonthLabels (value : string)
| ChangeDefaultScale (axis : Axis) (value : string).

Definition perform (a : Action) (p : Plugin) : Plugin :=
  match a with
  | AdjustScale axis delta => adjustScale axis delta p
  | Wheel c m sh d => onWheel c m sh d p
  | Reset => onReset p
  | PreviousYear y => onPreviousYear y p
  | NextYear y => onNextYear y p
  | Today y => onToday y p
  | ChangeDailyNotesFolder v => onChangeDailyNotesFolder v p
  | ChangeDailyNoteFormat v => onChangeDailyNoteFormat v p
  | ChangeDateFields v => onChangeDateFields v p
  | ChangeShowFileCreationDates v => onChangeShowFileCreationDates v p
  | ChangeWeekdayLabels v => onChangeWeekdayLabels v p
  | ChangeMonthLabels v => onChangeMonthLabels v p
  | ChangeDefaultScale axis v => onChangeDefaultScale axis v p
  end.

(** The actions of a list, first to last. *)
Definition performAll (actions : list Action) (p : Plugin) : Plugin :=
  fold_left (λ q a, perform a q) actions p.

(** The ranges the controls keep the sizes in: 0.5 to 5 for width and
    height, 0.5 to 3 for the font, for the sizes and for their defaults. *)
Definition maxScale (axis : Axis) : Q :=
  match axis with AxisFont => 3 | _ => 5 end.

(** A list entry as the inputs store it: not empty, no white space at
    either end, no comma. *)
Definition cleanLabel (label : string) : Prop :=
  label ≠ "" ∧ JSString.trim label = label ∧
  ("," : ascii) ∉ String.list_ascii_of_string label.

Definition scalesInRange (s : LinearCalendarSettings) : Prop :=
  ∀ axis,
    (1 # 2 <= getScale axis s <= maxScale axis)%Q ∧
    (1 # 2 <= getDefaultScale axis s <= maxScale axis)%Q.

End LinearCalendar.

(** ** A sample host

    Used to run the functions on concrete notes: UTC or any fixed offset, a
    given metadata cache, and parsers that accept the one form [YYYY-MM-DD]
    the way moment.js does in strict mode (four, two and two digits, a real
    calendar day) and reject every other input. *)

Module SampleHost.
Import ES JSDate LinearCalendar.

Fixpoint digits (str : string) (acc : Z) : option Z :=
  match str with
  | EmptyString => Some acc
  | String c r =>
      match Ascii.is_nat c with
      | Some d => digits r (10 * acc + Z.of_nat d)
      | None => None
      end
  end.

Definition parseYMD (tza : Z) (input : string) : option Date :=
  if negb (String.length input =? 10)%nat then None
  else if negb (String.eqb (String.substring 4 1 input) "-") then None
  else if negb (String.eqb (String.substring 7 1 input) "-") then None
  else
    match digits (String.substring 0 4 input) 0,
          digits (String.substring 5 2 input) 0,
          digits (String.substring 8 2 input) 0 with
    | Some y, Some m, Some d =>
        if (1 <=? m) && (m <=? 12) && (1 <=? d)
           && (d <=? GregorianMonthLength y (m - 1))
        then Some (mkDate (TimeClip (UTC tza (MakeDate (MakeDay y (m - 1) d) 0))))
        else None
    | _, _, _ => None
    end.

Definition sampleHost (tza : Z) (cache : TFile → option CachedMetadata) : Host :=
  {| LocalTZA := tza;
     momentStrict := λ input format,
       if String.eqb format "YYYY-MM-DD" then parseYMD tza input else None;
     momentParse := parseYMD tza;
     getFileCache := cache |}.

Definition noCache : TFile → option CachedMetadata := λ _, None.

(** A small vault: a daily note, a note with two date fields that name the
    same day, and a note with no date at all. *)
Definition dailyNote : TFile :=
  {| path := "Daily/2024-03-15.md"; basename := "2024-03-15";
     stat_ctime := 1700000000000 |}.

Definition taskNote : TFile :=
  {| path := "Projects/task.md"; basename := "task";
     stat_ctime := 1700000000000 |}.

Definition plainNote : TFile :=
  {| path := "Projects/plain.md"; basename := "plain";
     stat_ctime := 1700000000000 |}.

Definition sampleCache (f : TFile) : option CachedMetadata :=
  if String.eqb (path f) "Projects/task.md" then
    Some {| frontmatter :=
              Some (<["date" := VString "2024-01-01"]>
                      (<["due" := VString "2024-01-01"]> ∅)) |}
  else if String.eqb (path f) "Daily/2024-03-15.md" then
    Some {| frontmatter := Some (<["created" := VString "2024-03-01"]> ∅) |}
  else None.

Definition dailySettings : LinearCalendarSettings :=
  {| dailyNotesFolder := "Daily";
     dailyNoteFormat := "YYYY-MM-DD";
     dateFields := ["date"; "created"; "due"];
     showFileCreationDates := true;
     year := 2024;
     weekdayLabels := ["M"; "T"; "W"; "T"; "F"; "S"; "S"];
     monthLabels := ["Jan"; "Feb"; "Mar"; "Apr"; "May"; "Jun";
                     "Jul"; "Aug"; "Sep"; "Oct"; "Nov"; "Dec"];
     scaleX := 1; scaleY := 1; fontScale := 1;
     defaultScaleX := 1; defaultScaleY := 1; defaultFontScale := 1 |}.

End SampleHost.

(** * Properties *)

(** ** The time value algorithms *)

Module ESFacts.
Import ES.

Ltac case_tests :=
  repeat match goal with
    | |- context [?a =? ?b] => destruct (Z.eqb_spec a b)
    | |- context [?a <=? ?b] => destruct (Z.leb_spec a b)
    | |- context [?a <? ?b] => destruct (Z.ltb_spec a b)
    end.

Ltac each_month m Hm :=
  let H := fresh in
  assert (m = 0 ∨ m = 1 ∨ m = 2 ∨ m = 3 ∨ m = 4 ∨ m = 5 ∨ m = 6 ∨ m = 7 ∨
          m = 8 ∨ m = 9 ∨ m = 10 ∨ m = 11) as H by lia;
  clear Hm;
  destruct H as [->|[->|[->|[->|[->|[->|[->|[->|[->|[->|[->| ->]]]]]]]]]]].

Lemma DaysInYear_cases y : DaysInYear y = 365 ∨ DaysInYear y = 366.
Proof. unfold DaysInYear. case_tests; simpl; auto. Qed.

Lemma isLeapYear_DaysInYear y : isLeapYear y = (DaysInYear y =? 366).
Proof. unfold isLeapYear, DaysInYear. case_tests; done. Qed.

Lemma DayFromYear_succ y : DayFromYear (y + 1) = DayFromYear y + DaysInYear y.
Proof.
  unfold DayFromYear, DaysInYear.
  replace (y + 1 - 1969) with (y - 1969 + 1) by lia.
  replace (y + 1 - 1901) with (y - 1901 + 1) by lia.
  replace (y + 1 - 1601) with (y - 1601 + 1) by lia.
  case_tests; simpl; Z.div_mod_to_equations; lia.
Qed.

Lemma DayFromYear_mono a b : a ≤ b → DayFromYear a ≤ DayFromYear b.
Proof. unfold DayFromYear. intros. Z.div_mod_to_equations. lia. Qed.

(** [YearFromDay d] is the year ECMA-262 asks for: the one whose days
    contain [d]. *)
Lemma YearFromDay_spec d :
  DayFromYear (YearFromDay d) ≤ d < DayFromYear (YearFromDay d + 1).
Proof.
  unfold YearFromDay.
  set (y := 1970 + 400 * d / 146097).
  assert (DayFromYear (y - 1) ≤ d < DayFromYear (y + 2)) as Hest.
  { unfold DayFromYear, y. Z.div_mod_to_equations. lia. }
  case_tests.
  - replace (y + 1 + 1) with (y + 2) by lia. lia.
  - lia.
  - replace (y - 1 + 1) with y by lia. lia.
Qed.

Lemma YearFromDay_unique d y :
  DayFromYear y ≤ d < DayFromYear (y + 1) → YearFromDay d = y.
Proof.
  intros Hy. pose proof (YearFromDay_spec d) as Hs.
  destruct (Z.lt_trichotomy (YearFromDay d) y) as [Hlt|[Heq|Hgt]]; [|done|].
  - pose proof (DayFromYear_mono (YearFromDay d + 1) y). lia.
  - pose proof (DayFromYear_mono (y + 1) (YearFromDay d)). lia.
Qed.

(** The largest year that starts at or before [t]. *)
Lemma YearFromTime_largest t y :
  TimeFromYear y ≤ t ↔ y ≤ YearFromTime t.
Proof.
  unfold TimeFromYear, YearFromTime, Day, msPerDay.
  pose proof (YearFromDay_spec (t / 86400000)) as Hs.
  split; intros H.
  - destruct (Z_le_gt_dec y (YearFromDay (t / 86400000))) as [|Hgt]; [done|].
    pose proof (DayFromYear_mono (YearFromDay (t / 86400000) + 1) y).
    Z.div_mod_to_equations. lia.
  - pose proof (DayFromYear_mono y (YearFromDay (t / 86400000)) H).
    Z.div_mod_to_equations. lia.
Qed.

Lemma Day_MakeDate d : Day (MakeDate d 0) = d.
Proof.
  unfold Day, MakeDate, msPerDay. rewrite Z.add_0_r. by apply Z.div_mul.
Qed.

Lemma DayWithinYear_range t :
  0 ≤ DayWithinYear t < DaysInYear (YearFromTime t).
Proof.
  unfold DayWithinYear, YearFromTime.
  pose proof (YearFromDay_spec (Day t)).
  pose proof (DayFromYear_succ (YearFromDay (Day t))). lia.
Qed.

Lemma MonthFromTime_range t : 0 ≤ MonthFromTime t ≤ 11.
Proof. unfold MonthFromTime. case_tests; lia. Qed.

Lemma DateFromTime_range t : 1 ≤ DateFromTime t ≤ 31.
Proof.
  pose proof (DayWithinYear_range t) as Hd.
  unfold DateFromTime, MonthFromTime, InLeapYear in *.
  destruct (DaysInYear_cases (YearFromTime t)) as [Hy|Hy]; rewrite Hy in *; simpl;
    case_tests; lia.
Qed.

Lemma WeekDay_range t : 0 ≤ WeekDay t ≤ 6.
Proof. unfold WeekDay. Z.div_mod_to_equations. lia. Qed.

Lemma GregorianMonthLength_range y mn : 28 ≤ GregorianMonthLength y mn ≤ 31.
Proof.
  unfold GregorianMonthLength. repeat case_match; lia.
Qed.

Lemma MakeDay_in_year y mn date :
  0 ≤ mn ≤ 11 → 1 ≤ date ≤ GregorianMonthLength y mn →
  MakeDay y mn date = DayFromYear y + DaysBeforeMonth y mn + date - 1 ∧
  0 ≤ DaysBeforeMonth y mn + date - 1 < DaysInYear y.
Proof.
  intros Hm Hd. unfold MakeDay.
  rewrite (Z.div_small mn 12), (Z.mod_small mn 12) by lia.
  replace (y + 0) with y by lia.
  split; [done|].
  unfold DaysBeforeMonth, GregorianMonthLength in *.
  rewrite isLeapYear_DaysInYear in Hd.
  destruct (DaysInYear_cases y) as [Hy|Hy]; rewrite Hy in *; simpl in *;
    each_month mn Hm; simpl in *; lia.
Qed.

(** [MakeDay] builds the day it is asked for: the time it gives reads
    back as the same year, month and date. *)
Lemma MakeDay_fields y mn date :
  0 ≤ mn ≤ 11 → 1 ≤ date ≤ GregorianMonthLength y mn →
  YearFromTime (MakeDate (MakeDay y mn date) 0) = y ∧
  MonthFromTime (MakeDate (MakeDay y mn date) 0) = mn ∧
  DateFromTime (MakeDate (MakeDay y mn date) 0) = date.
Proof.
  intros Hm Hd. set (t := MakeDate (MakeDay y mn date) 0).
  destruct (MakeDay_in_year y mn date Hm Hd) as [Hday Hin].
  assert (YearFromTime t = y) as Hy.
  { unfold YearFromTime, t. rewrite Day_MakeDate. apply YearFromDay_unique.
    rewrite DayFromYear_succ. lia. }
  assert (DayWithinYear t = DaysBeforeMonth y mn + date - 1) as Hw.
  { unfold DayWithinYear. rewrite Hy. unfold t. rewrite Day_MakeDate. lia. }
  split; [done|].
  unfold DateFromTime, MonthFromTime, InLeapYear. rewrite Hw, Hy.
  clear Hw Hy Hday t.
  unfold DaysBeforeMonth, GregorianMonthLength in *.
  rewrite isLeapYear_DaysInYear in Hd.
  destruct (DaysInYear_cases y) as [Hy|Hy]; rewrite Hy in *; simpl in *;
    each_month mn Hm; simpl in *; case_tests; try lia; split; lia.
Qed.

(** Day 0 of the next month is the last day of this one. *)
Lemma MakeDay_zeroth y m :
  0 ≤ m ≤ 11 → MakeDay y (m + 1) 0 = MakeDay y m (GregorianMonthLength y m).
Proof.
  intros Hm. unfold MakeDay.
  rewrite (Z.div_small m 12), (Z.mod_small m 12) by lia.
  replace (y + 0) with y by lia.
  destruct (decide (m = 11)) as [->|Hne].
  - change ((11 + 1) `div` 12) with 1. change ((11 + 1) `mod` 12) with 0.
    rewrite DayFromYear_succ.
    unfold DaysBeforeMonth, GregorianMonthLength.
    destruct (DaysInYear_cases y) as [Hy|Hy]; rewrite !Hy; simpl; lia.
  - rewrite (Z.div_small (m + 1) 12), (Z.mod_small (m + 1) 12) by lia.
    replace (y + 0) with y by lia.
    unfold DaysBeforeMonth, GregorianMonthLength.
    rewrite isLeapYear_DaysInYear.
    destruct (DaysInYear_cases y) as [Hy|Hy]; rewrite !Hy;
      each_month m Hm; simpl; lia.
Qed.

(** The first and the last day of a year the host can represent. *)
Lemma DayFromYear_bounds y :
  -271821 ≤ y ≤ 275760 → -100000109 ≤ DayFromYear y ≤ 99999744.
Proof.
  intros [Hlo Hhi].
  pose proof (DayFromYear_mono _ _ Hlo). pose proof (DayFromYear_mono _ _ Hhi).
  change (DayFromYear (-271821)) with (-100000109) in *.
  change (DayFromYear 275760) with 99999744 in *. lia.
Qed.

End ESFacts.

(** ** The [Date] object *)

Module DateFacts.
Import ES ESFacts JSDate.

Lemma MakeFullYear_range year :
  -271821 ≤ year ≤ 275760 → -271821 ≤ MakeFullYear year ≤ 275760.
Proof. unfold MakeFullYear. case_tests; simpl; lia. Qed.

Lemma MakeFullYear_id year : ¬ 0 ≤ year ≤ 99 → MakeFullYear year = year.
Proof. unfold MakeFullYear. case_tests; simpl; lia. Qed.

Lemma TimeClip_Some t : Z.abs t ≤ 8640000000000000 → TimeClip t = Some t.
Proof. unfold TimeClip. case_tests; [done|lia]. Qed.

Lemma TimeClip_None t : 8640000000000000 < Z.abs t → TimeClip t = None.
Proof. unfold TimeClip. case_tests; [lia|done]. Qed.

(** A local midnight at most 99999999 days from the epoch is a valid
    date, in every time zone. *)
Lemma TimeClip_day tza d :
  Z.abs tza ≤ msPerDay → -99999999 ≤ d ≤ 99999999 →
  TimeClip (UTC tza (MakeDate d 0)) = Some (UTC tza (MakeDate d 0)).
Proof.
  unfold UTC, MakeDate, msPerDay. intros. apply TimeClip_Some. lia.
Qed.

Lemma LocalTime_UTC tza t : LocalTime tza (UTC tza t) = t.
Proof. unfold LocalTime, UTC. lia. Qed.

(** What the getters read on a date that [new Date(year, month, date)]
    could build. *)
Lemma getters_newDate tza year month date :
  0 ≤ month ≤ 11 → 1 ≤ date ≤ GregorianMonthLength (MakeFullYear year) month →
  timeValue (newDate tza year month date) ≠ None →
  getFullYear tza (newDate tza year month date) = Some (MakeFullYear year) ∧
  getMonth tza (newDate tza year month date) = Some month ∧
  getDate tza (newDate tza year month date) = Some date.
Proof.
  intros Hm Hd. unfold getFullYear, getMonth, getDate, newDate. simpl.
  destruct (TimeClip _) as [t|] eqn:Ht; [intros _|done]. simpl.
  unfold TimeClip in Ht. case_match; [|done]. injection Ht as <-.
  rewrite LocalTime_UTC.
  destruct (MakeDay_fields (MakeFullYear year) month date Hm Hd) as (-> & -> & ->).
  done.
Qed.

Lemma getDay_range tza d w : getDay tza d = Some w → 0 ≤ w ≤ 6.
Proof.
  unfold getDay. destruct (timeValue d); [|done]. intros [= <-].
  apply WeekDay_range.
Qed.

Lemma getDate_range tza d n : getDate tza d = Some n → 1 ≤ n ≤ 31.
Proof.
  unfold getDate. destruct (timeValue d); [|done]. intros [= <-].
  apply DateFromTime_range.
Qed.

Lemma getMonth_range tza d n : getMonth tza d = Some n → 0 ≤ n ≤ 11.
Proof.
  unfold getMonth. destruct (timeValue d); [|done]. intros [= <-].
  apply MonthFromTime_range.
Qed.

(** The first days of the months and day 0 of the next one are valid dates
    for the years from -271820 to 275759. *)
Lemma newDate_valid tza year month date :
  Z.abs tza ≤ msPerDay → -271820 ≤ year ≤ 275759 → 0 ≤ month ≤ 11 →
  1 ≤ date ≤ GregorianMonthLength (MakeFullYear year) month →
  timeValue (newDate tza year month date) ≠ None.
Proof.
  intros Htza Hy Hm Hd. unfold newDate. simpl.
  assert (-271820 ≤ MakeFullYear year ≤ 275759) as Hyr.
  { unfold MakeFullYear. case_tests; simpl; lia. }
  destruct (MakeDay_in_year _ _ _ Hm Hd) as [-> Hin].
  pose proof (DayFromYear_mono (-271820) (MakeFullYear year)) as Hlo.
  pose proof (DayFromYear_mono (MakeFullYear year + 1) 275760) as Hhi.
  rewrite DayFromYear_succ in Hhi.
  change (DayFromYear (-271820)) with (-99999744) in Hlo.
  change (DayFromYear 275760) with 99999744 in Hhi.
  rewrite TimeClip_day; [done|done|lia].
Qed.

End DateFacts.

(** ** The grid layout engine *)

Module LayoutFacts.
Import ES ESFacts JSDate DateFacts LinearCalendar SampleHost.

Lemma months_of_year : seqZ 0 12 = [0; 1; 2; 3; 4; 5; 6; 7; 8; 9; 10; 11].
Proof. reflexivity. Qed.

Lemma elem_of_months m : m ∈ seqZ 0 12 ↔ 0 ≤ m ≤ 11.
Proof. rewrite elem_of_seqZ. lia. Qed.

Lemma monthOffset_of_getDay host year month w :
  getDay (LocalTZA host) (newDate (LocalTZA host) year month 1) = Some w →
  monthOffset host year month = Some ((w + 6) mod 7).
Proof.
  intros Hw. pose proof (getDay_range _ _ _ Hw).
  unfold monthOffset. rewrite Hw. simpl. by rewrite Z.rem_mod_nonneg by lia.
Qed.

Lemma monthOffset_range host year month o :
  monthOffset host year month = Some o → 0 ≤ o ≤ 6.
Proof.
  unfold monthOffset.
  destruct (getDay _ _) as [w|] eqn:Hw; [|done].
  pose proof (getDay_range _ _ _ Hw). simpl. intros [= <-].
  rewrite Z.rem_mod_nonneg by lia. Z.div_mod_to_equations. lia.
Qed.

Lemma daysInMonth_range host year month n :
  daysInMonth host year month = Some n → 1 ≤ n ≤ 31.
Proof. apply getDate_range. Qed.

Lemma newDate_zeroth tza year month :
  0 ≤ month ≤ 11 →
  newDate tza year (month + 1) 0 =
  newDate tza year month (GregorianMonthLength (MakeFullYear year) month).
Proof. intros Hm. unfold newDate. by rewrite MakeDay_zeroth. Qed.

(** The code's day count is the Gregorian month length, whenever the last
    day of the month is a date the host can represent. *)
Lemma daysInMonth_Gregorian host year month :
  0 ≤ month ≤ 11 →
  timeValue (newDate (LocalTZA host) year (month + 1) 0) ≠ None →
  daysInMonth host year month =
  Some (GregorianMonthLength (MakeFullYear year) month).
Proof.
  intros Hm Hv. unfold daysInMonth. rewrite newDate_zeroth in * by done.
  pose proof (GregorianMonthLength_range (MakeFullYear year) month).
  by apply getters_newDate; [|lia|].
Qed.

Lemma endColumn_range host year month e :
  endColumn host year month = Some e → 1 ≤ e ≤ 37.
Proof.
  unfold endColumn.
  destruct (monthOffset _ _ _) as [o|] eqn:Ho; [|done].
  destruct (daysInMonth _ _ _) as [n|] eqn:Hn; [|done].
  apply monthOffset_range in Ho. apply daysInMonth_range in Hn.
  simpl. intros [= <-]. lia.
Qed.

(** The loop of [calculateMaxColumns] keeps the largest end column seen,
    skipping the months whose end column is NaN. *)
Lemma fold_max_spec (g : Z → Num.number) (l : list Z) (a : Z) :
  ∃ c,
    fold_left (λ acc m, if Num.gt (g m) acc then g m else acc) l (Some a) = Some c ∧
    a ≤ c ∧
    (∀ m e, m ∈ l → g m = Some e → e ≤ c) ∧
    (c = a ∨ ∃ m, m ∈ l ∧ g m = Some c).
Proof.
  revert a. induction l as [|m l IH]; intros a; simpl.
  - exists a. split_and!; [done|lia| |by left]. intros ?? []%elem_of_nil.
  - destruct (g m) as [e|] eqn:He; simpl.
    + destruct (Z.ltb_spec a e).
      * destruct (IH e) as (c & -> & Hle & Hall & Hex). exists c.
        split_and!; [done|lia| |].
        -- intros m' e' [->|Hin]%elem_of_cons Hm'; [|by eapply Hall].
           rewrite He in Hm'. injection Hm' as <-. done.
        -- right. destruct Hex as [->|(m' & Hin & Hm')].
           ++ exists m. split; [left|done].
           ++ exists m'. split; [by right|done].
      * destruct (IH a) as (c & -> & Hle & Hall & Hex). exists c.
        split_and!; [done|lia| |].
        -- intros m' e' [->|Hin]%elem_of_cons Hm'; [|by eapply Hall].
           rewrite He in Hm'. injection Hm' as <-. lia.
        -- destruct Hex as [->|(m' & Hin & Hm')]; [by left|].
           right. exists m'. split; [by right|done].
    + destruct (IH a) as (c & -> & Hle & Hall & Hex). exists c.
      split_and!; [done|lia| |].
      * intros m' e' [->|Hin]%elem_of_cons Hm'; [congruence|by eapply Hall].
      * destruct Hex as [->|(m' & Hin & Hm')]; [by left|].
        right. exists m'. split; [by right|done].
Qed.

(** [calculateMaxColumns] is the maximum of the end columns of the twelve
    months (0 when none is a number); it never exceeds 37. *)
Lemma calculateMaxColumns_max host year :
  ∃ c,
    calculateMaxColumns host year = Some c ∧ 0 ≤ c ≤ 37 ∧
    (∀ m e, 0 ≤ m ≤ 11 → endColumn host year m = Some e → e ≤ c) ∧
    (c = 0 ∨ ∃ m, 0 ≤ m ≤ 11 ∧ endColumn host year m = Some c).
Proof.
  unfold calculateMaxColumns.
  destruct (fold_max_spec (endColumn host year) (seqZ 0 12) 0)
    as (c & Hc & Hle & Hall & Hex).
  exists c. split; [done|]. split_and!.
  - done.
  - destruct Hex as [->|(m & _ & Hm)]; [lia|].
    apply endColumn_range in Hm. lia.
  - intros m e Hm. apply Hall. by apply elem_of_months.
  - destruct Hex as [->|(m & Hin & Hm)]; [by left|].
    right. exists m. by rewrite <-elem_of_months.
Qed.

(** May has 31 days and is a month the host can represent in every year
    from -271821 to 275760. *)
Lemma endColumn_May host year :
  Z.abs (LocalTZA host) ≤ msPerDay → -271821 ≤ year ≤ 275760 →
  ∃ e, endColumn host year 4 = Some e ∧ 31 ≤ e.
Proof.
  intros Htza Hy. apply MakeFullYear_range in Hy.
  pose proof (DayFromYear_bounds _ Hy) as Hb.
  assert (∀ date, 1 ≤ date ≤ 31 →
            timeValue (newDate (LocalTZA host) year 4 date) ≠ None) as Hvalid.
  { intros date Hd. unfold newDate. simpl.
    destruct (MakeDay_in_year (MakeFullYear year) 4 date) as [-> Hin];
      [lia|done|].
    unfold DaysBeforeMonth in *. 
    rewrite TimeClip_day; [done|done|]. case_match; lia. }
  assert (timeValue (newDate (LocalTZA host) year (4 + 1) 0) ≠ None) as Hlast.
  { rewrite newDate_zeroth by lia. by apply Hvalid. }
  unfold endColumn. rewrite daysInMonth_Gregorian by (done || lia).
  destruct (getDay (LocalTZA host) (newDate (LocalTZA host) year 4 1))
    as [w|] eqn:Hw.
  - rewrite (monthOffset_of_getDay _ _ _ _ Hw). simpl.
    eexists. split; [done|]. change (GregorianMonthLength _ 4) with 31.
    Z.div_mod_to_equations. lia.
  - unfold getDay in Hw. specialize (Hvalid 1).
    destruct (timeValue _); [done|]. exfalso. apply Hvalid; [lia|done].
Qed.

(** Outside these years no month has a first day the host can represent. *)
Lemma endColumn_NaN host year month :
  Z.abs (LocalTZA host) ≤ msPerDay → ¬ -271821 ≤ year ≤ 275760 →
  0 ≤ month ≤ 11 → endColumn host year month = None.
Proof.
  intros Htza Hy Hm.
  assert (timeValue (newDate (LocalTZA host) year month 1) = None) as Hv.
  { unfold newDate. simpl. rewrite MakeFullYear_id by lia.
    pose proof (GregorianMonthLength_range year month).
    destruct (MakeDay_in_year year month 1) as [-> Hin]; [lia|lia|].
    pose proof (DaysInYear_cases year).
    pose proof (DayFromYear_succ year) as Hs.
    apply TimeClip_None. unfold UTC, MakeDate, msPerDay in *.
    destruct (Z_le_gt_dec 275761 year) as [Hhi|Hlo].
    - pose proof (DayFromYear_mono _ _ Hhi) as Hd.
      change (DayFromYear 275761) with 100000110 in Hd. lia.
    - assert (year + 1 ≤ -271821) as Hlo' by lia.
      pose proof (DayFromYear_mono _ _ Hlo') as Hd.
      change (DayFromYear (-271821)) with (-100000109) in Hd. lia. }
  unfold endColumn, monthOffset, getDay. by rewrite Hv.
Qed.

Lemma calculateMaxColumns_unrepresentable host year :
  Z.abs (LocalTZA host) ≤ msPerDay → ¬ -271821 ≤ year ≤ 275760 →
  calculateMaxColumns host year = Some 0.
Proof.
  intros Htza Hy.
  destruct (calculateMaxColumns_max host year) as (c & -> & _ & _ & [->|Hex]);
    [done|].
  destruct Hex as (m & Hm & He). by rewrite endColumn_NaN in He.
Qed.

(** C2 (amended). For every year from -271821 to 275760, the years in which
    the host's [Date] can hold a whole month, the column count
    [calculateMaxColumns] computes is a number from 31 to 37, and it is the
    maximum over the twelve months of offset + days in the month. For every
    other year no date of the year is valid and the count is 0; it is at
    most 37 in every case. (The host's time zone offset is at most a day.) *)
Theorem maxColumns_bounds host year :
  Z.abs (LocalTZA host) ≤ msPerDay →
  ∃ c,
    calculateMaxColumns host year = Some c ∧ c ≤ 37 ∧
    (∀ m e, 0 ≤ m ≤ 11 → endColumn host year m = Some e → e ≤ c) ∧
    (-271821 ≤ year ≤ 275760 →
     31 ≤ c ∧ ∃ m, 0 ≤ m ≤ 11 ∧ endColumn host year m = Some c) ∧
    (¬ -271821 ≤ year ≤ 275760 → c = 0).
Proof.
  intros Htza.
  destruct (calculateMaxColumns_max host year) as (c & Hc & Hle & Hall & Hex).
  exists c. split_and!; [done|lia|done| |].
  - intros Hy.
    destruct (endColumn_May host year Htza Hy) as (e & He & H31).
    pose proof (Hall 4 e ltac:(lia) He) as Hec.
    split; [lia|]. destruct Hex as [->|Hex]; [lia|done].
  - intros Hy. rewrite calculateMaxColumns_unrepresentable in Hc by done.
    by injection Hc.
Qed.

Lemma maxColumns_bounds_witness :
  ∃ c,
    calculateMaxColumns (sampleHost 0 noCache) 2024 = Some c ∧ c ≤ 37 ∧
    (∀ m e, 0 ≤ m ≤ 11 → endColumn (sampleHost 0 noCache) 2024 m = Some e → e ≤ c) ∧
    (-271821 ≤ 2024 ≤ 275760 →
     31 ≤ c ∧ ∃ m, 0 ≤ m ≤ 11 ∧ endColumn (sampleHost 0 noCache) 2024 m = Some c) ∧
    (¬ -271821 ≤ 2024 ≤ 275760 → c = 0).
Proof.
  apply (maxColumns_bounds (sampleHost 0 noCache) 2024). simpl.
  unfold msPerDay. lia.
Defined.

(** C2 as stated fails: in the year 275761 no date is valid, every end
    column is NaN and the column count stays 0. *)
Lemma maxColumns_year_275761 :
  calculateMaxColumns (sampleHost 0 noCache) 275761 = Some 0 ∧
  ¬ (∃ c, calculateMaxColumns (sampleHost 0 noCache) 275761 = Some c ∧
          31 ≤ c ≤ 37).
Proof.
  assert (calculateMaxColumns (sampleHost 0 noCache) 275761 = Some 0) as H
    by (by vm_compute).
  split; [done|]. rewrite H. intros (c & [= <-] & Hc). lia.
Qed.

(** Day 1 of every month of the years from -271820 to 275759 is a date
    the host can represent, and it reads back as day 1 of that month (of
    the year 1900 + year for a year from 0 to 99). *)
Lemma firstDay_fields host year month :
  Z.abs (LocalTZA host) ≤ msPerDay → -271820 ≤ year ≤ 275759 →
  0 ≤ month ≤ 11 →
  timeValue (newDate (LocalTZA host) year month 1) ≠ None ∧
  getFullYear (LocalTZA host) (newDate (LocalTZA host) year month 1)
    = Some (MakeFullYear year) ∧
  getMonth (LocalTZA host) (newDate (LocalTZA host) year month 1) = Some month ∧
  getDate (LocalTZA host) (newDate (LocalTZA host) year month 1) = Some 1.
Proof.
  intros Htza Hy Hm.
  pose proof (GregorianMonthLength_range (MakeFullYear year) month).
  assert (timeValue (newDate (LocalTZA host) year month 1) ≠ None) as Hv
    by (apply newDate_valid; [done|done|done|lia]).
  split; [done|]. apply getters_newDate; [done|lia|done].
Qed.

(** C3 (amended). For every year and month whose day 1 is a date the host
    can represent, and so for every month of the years from -271820 to
    275759, the offset is [(w + 6) mod 7] for the weekday [w] (Sunday is 0)
    the host gives that day: a number from 0 to 6, 6 for a Sunday and 0 for
    a Monday. When day 1 is not a date the host can represent the offset is
    NaN. *)
Theorem offset_remap host year month :
  (timeValue (newDate (LocalTZA host) year month 1) ≠ None →
   ∃ w,
     getDay (LocalTZA host) (newDate (LocalTZA host) year month 1) = Some w ∧
     0 ≤ w ≤ 6 ∧
     monthOffset host year month = Some ((w + 6) mod 7) ∧
     0 ≤ (w + 6) mod 7 ≤ 6 ∧
     (w = 0 → monthOffset host year month = Some 6) ∧
     (w = 1 → monthOffset host year month = Some 0)) ∧
  (timeValue (newDate (LocalTZA host) year month 1) = None →
   monthOffset host year month = None) ∧
  (Z.abs (LocalTZA host) ≤ msPerDay → -271820 ≤ year ≤ 275759 →
   0 ≤ month ≤ 11 →
   timeValue (newDate (LocalTZA host) year month 1) ≠ None).
Proof.
  split_and!.
  - intros Hvalid.
    destruct (getDay (LocalTZA host) (newDate (LocalTZA host) year month 1))
      as [w|] eqn:Hw.
    + pose proof (getDay_range _ _ _ Hw) as Hr.
      pose proof (monthOffset_of_getDay _ _ _ _ Hw) as Ho.
      exists w. split_and!; [done|lia|lia|done| | | |].
      * Z.div_mod_to_equations. lia.
      * Z.div_mod_to_equations. lia.
      * intros ->. by rewrite Ho.
      * intros ->. by rewrite Ho.
    + unfold getDay in Hw. by destruct (timeValue _).
  - intros Hnone. unfold monthOffset, getDay. by rewrite Hnone.
  - intros Htza Hy Hm. by apply firstDay_fields.
Qed.

(** November 2026 starts on a Sunday. *)
Lemma offset_remap_witness :
  getDay 0 (newDate 0 2026 10 1) = Some 0 ∧
  monthOffset (sampleHost 0 noCache) 2026 10 = Some 6.
Proof.
  destruct (offset_remap (sampleHost 0 noCache) 2026 10) as (H & _ & Hvalid).
  destruct H as (w & Hw & _ & _ & _ & Hsun & _).
  - apply Hvalid; simpl; unfold msPerDay; lia.
  - assert (w = 0) as -> by (vm_compute in Hw; congruence).
    split; [done|]. by apply Hsun.
Defined.

(** C3 as stated fails: day 1 of January 275761 is not a date the host
    can represent, its weekday is NaN and so is the offset. *)
Lemma offset_year_275761 :
  monthOffset (sampleHost 0 noCache) 275761 0 = None ∧
  ¬ (∃ o, monthOffset (sampleHost 0 noCache) 275761 0 = Some o ∧ 0 ≤ o ≤ 6).
Proof.
  assert (monthOffset (sampleHost 0 noCache) 275761 0 = None) as H
    by (by vm_compute).
  split; [done|]. rewrite H. by intros (o & [=] & _).
Qed.

(** The leap year rule of the specification, on the code. *)
Example daysInMonth_February :
  daysInMonth (sampleHost 0 noCache) 2024 1 = Some 29 ∧
  daysInMonth (sampleHost 0 noCache) 2023 1 = Some 28 ∧
  daysInMonth (sampleHost 0 noCache) 2000 1 = Some 29 ∧
  daysInMonth (sampleHost 0 noCache) 1900 1 = Some 28.
Proof. by vm_compute. Qed.

End LayoutFacts.

(** ** The date key *)

Module KeyFacts.
Import ES JSDate LinearCalendar SampleHost.

(** A property checked on every number of a range holds on the range. *)
Lemma range_forallb (P : Z → bool) (lo len : Z) :
  forallb P (seqZ lo len) = true → ∀ z, lo ≤ z < lo + len → P z = true.
Proof.
  intros Hall z Hz. rewrite forallb_forall in Hall. apply Hall.
  apply list_elem_of_In, elem_of_seqZ. lia.
Qed.

Lemma padStart_month m :
  0 ≤ m ≤ 11 → JSString.padStart 2 "0" (pretty (m + 1)) = twoDigits (m + 1).
Proof.
  intros Hm. apply String.eqb_eq.
  apply (range_forallb
           (λ m, String.eqb (JSString.padStart 2 "0" (pretty (m + 1)))
                            (twoDigits (m + 1)))
           0 12); [by vm_compute|lia].
Qed.

Lemma padStart_date n :
  1 ≤ n ≤ 31 → JSString.padStart 2 "0" (pretty n) = twoDigits n.
Proof.
  intros Hn. apply String.eqb_eq.
  apply (range_forallb
           (λ n, String.eqb (JSString.padStart 2 "0" (pretty n)) (twoDigits n))
           1 31); [by vm_compute|lia].
Qed.

Lemma twoDigits_shape n :
  0 ≤ n ≤ 99 → ∃ a b, twoDigits n = String a (String b "") ∧
                       isDigit a = true ∧ isDigit b = true.
Proof.
  intros Hn. eexists _, _. split; [done|]. apply andb_true_iff.
  apply (range_forallb
           (λ n, isDigit (pretty_N_char (Z.to_N (n / 10))) &&
                 isDigit (pretty_N_char (Z.to_N (n mod 10)))) 0 100);
    [by vm_compute|lia].
Qed.

Lemma pretty_four_digits y :
  1000 ≤ y ≤ 9999 →
  String.length (pretty y) = 4%nat ∧ allDigits (pretty y) = true.
Proof.
  intros Hy. rewrite <-Nat.eqb_eq, <-andb_true_iff.
  apply (range_forallb
           (λ y, (String.length (pretty y) =? 4)%nat && allDigits (pretty y))
           1000 9000); [by vm_compute|lia].
Qed.

Lemma pretty_short y : 0 ≤ y ≤ 999 → String.length (pretty y) ≠ 4%nat.
Proof.
  intros Hy. apply Nat.eqb_neq, negb_true_iff.
  apply (range_forallb (λ y, negb (String.length (pretty y) =? 4)%nat) 0 1000);
    [by vm_compute|lia].
Qed.

Lemma pretty_negative y : y < 0 → allDigits (pretty y) = false.
Proof. destruct y; [lia|lia|done]. Qed.

Lemma pretty_N_go_length x s :
  (String.length s ≤ String.length (pretty_N_go x s))%nat.
Proof.
  revert s. induction (N.lt_wf_0 x) as [x _ IH]; intros s.
  assert (x = 0 ∨ 0 < x)%N as [->|?] by lia; [by rewrite pretty_N_go_0|].
  rewrite pretty_N_go_step by done.
  etrans; [|by eapply IH, N.div_lt]. simpl. lia.
Qed.

Lemma pretty_long y : 10000 ≤ y → (5 ≤ String.length (pretty y))%nat.
Proof.
  intros Hy. destruct y as [|p|p]; [lia| |lia].
  unfold pretty, pretty_Z, pretty, pretty_positive, pretty, pretty_N.
  case_decide; [done|].
  assert (10000 ≤ N.pos p)%N as Hp by lia. revert Hp.
  generalize (N.pos p). intros x Hx.
  do 5 (rewrite pretty_N_go_step;
        [|repeat (apply N.div_str_pos; split; [done|]; try lia);
          repeat (apply N.div_le_lower_bound; [done|]); lia]).
  etrans; [|apply pretty_N_go_length]. simpl. lia.
Qed.

Lemma length_append (a b : string) :
  String.length (a +:+ b) = (String.length a + String.length b)%nat.
Proof. induction a as [|c a IH]; simpl; [done|by rewrite IH]. Qed.

(** A key made of a year part, a dash, two digits, a dash and two digits
    has the padded shape exactly when the year part is four digits. *)
Lemma isPaddedKey_parts (yy : string) (a b c d : ascii) :
  isDigit a = true → isDigit b = true → isDigit c = true → isDigit d = true →
  isPaddedKey (yy +:+ "-" +:+ String a (String b "") +:+ "-" +:+
               String c (String d "")) =
  (String.length yy =? 4)%nat && allDigits yy.
Proof.
  intros Ha Hb Hc Hd. unfold isPaddedKey.
  rewrite length_append. simpl String.length.
  destruct (Nat.eqb_spec (String.length yy) 4) as [Hlen|Hlen].
  - destruct yy as [|y1 [|y2 [|y3 [|y4 [|y5 yy]]]]]; try done.
    cbv -[isDigit]. rewrite Ha, Hb, Hc, Hd.
    destruct (isDigit y1), (isDigit y2), (isDigit y3), (isDigit y4); done.
  - destruct (Nat.eqb_spec (String.length yy + 6) 10); [lia|done].
Qed.

Lemma dateKey_parts host d :
  timeValue d ≠ None →
  ∃ y m n,
    getFullYear (LocalTZA host) d = Some y ∧
    getMonth (LocalTZA host) d = Some m ∧
    getDate (LocalTZA host) d = Some n ∧
    0 ≤ m ≤ 11 ∧ 1 ≤ n ≤ 31 ∧
    dateKey host d =
      pretty y +:+ "-" +:+ twoDigits (m + 1) +:+ "-" +:+ twoDigits n.
Proof.
  intros Hv. unfold dateKey.
  destruct (getMonth (LocalTZA host) d) as [m|] eqn:Hm.
  2:{ unfold getMonth in Hm. by destruct (timeValue d). }
  destruct (getDate (LocalTZA host) d) as [n|] eqn:Hn.
  2:{ unfold getDate in Hn. by destruct (timeValue d). }
  destruct (getFullYear (LocalTZA host) d) as [y|] eqn:Hy.
  2:{ unfold getFullYear in Hy. by destruct (timeValue d). }
  apply DateFacts.getMonth_range in Hm. apply DateFacts.getDate_range in Hn.
  exists y, m, n. split_and!; try done; try lia.
  simpl. by rewrite padStart_month, padStart_date.
Qed.

Lemma four_digits_iff y :
  (String.length (pretty y) =? 4)%nat && allDigits (pretty y) = true ↔
  1000 ≤ y ≤ 9999.
Proof.
  split.
  - intros [Hlen%Nat.eqb_eq Hdig]%andb_true_iff.
    destruct (Z_lt_le_dec y 0) as [Hneg|Hpos].
    { by rewrite pretty_negative in Hdig by done. }
    destruct (Z_lt_le_dec y 1000) as [Hsmall|Hbig].
    { destruct (pretty_short y); [lia|done]. }
    destruct (Z_lt_le_dec y 10000) as [|Hlong]; [lia|].
    apply pretty_long in Hlong. lia.
  - intros Hy. destruct (pretty_four_digits y Hy) as [-> ->]. done.
Qed.

(** C7 (amended). For every valid date the key is the year in plain
    decimal, a dash, the month in exactly two digits, a dash and the day in
    exactly two digits. The month and the day are zero-padded; the year is
    not, so the key has the shape four digits, two digits, two digits
    exactly for the years from 1000 to 9999. *)
Theorem dateKey_padding host d :
  timeValue d ≠ None →
  ∃ y m n,
    getFullYear (LocalTZA host) d = Some y ∧
    getMonth (LocalTZA host) d = Some m ∧
    getDate (LocalTZA host) d = Some n ∧
    dateKey host d =
      pretty y +:+ "-" +:+ twoDigits (m + 1) +:+ "-" +:+ twoDigits n ∧
    1 ≤ m + 1 ≤ 12 ∧ 1 ≤ n ≤ 31 ∧
    String.length (twoDigits (m + 1)) = 2%nat ∧
    allDigits (twoDigits (m + 1)) = true ∧
    String.length (twoDigits n) = 2%nat ∧
    allDigits (twoDigits n) = true ∧
    (isPaddedKey (dateKey host d) = true ↔ 1000 ≤ y ≤ 9999).
Proof.
  intros Hv.
  destruct (dateKey_parts host d Hv) as (y & m & n & Hy & Hm & Hn & Hmr & Hnr & Hk).
  exists y, m, n.
  destruct (twoDigits_shape (m + 1)) as (a & b & Hab & Ha & Hb); [lia|].
  destruct (twoDigits_shape n) as (c & e & Hce & Hc & He); [lia|].
  split_and!; try done; try lia.
  - rewrite Hab. simpl. by rewrite Ha, Hb.
  - rewrite Hce. simpl. by rewrite Hc, He.
  - rewrite Hk, Hab, Hce, isPaddedKey_parts by done. apply four_digits_iff.
Qed.

Lemma dateKey_padding_witness :
  ∃ y m n,
    getFullYear 0 (newDate 0 2024 2 15) = Some y ∧
    getMonth 0 (newDate 0 2024 2 15) = Some m ∧
    getDate 0 (newDate 0 2024 2 15) = Some n ∧
    dateKey (sampleHost 0 noCache) (newDate 0 2024 2 15) =
      pretty y +:+ "-" +:+ twoDigits (m + 1) +:+ "-" +:+ twoDigits n ∧
    1 ≤ m + 1 ≤ 12 ∧ 1 ≤ n ≤ 31 ∧
    String.length (twoDigits (m + 1)) = 2%nat ∧
    allDigits (twoDigits (m + 1)) = true ∧
    String.length (twoDigits n) = 2%nat ∧
    allDigits (twoDigits n) = true ∧
    (isPaddedKey (dateKey (sampleHost 0 noCache) (newDate 0 2024 2 15)) = true
     ↔ 1000 ≤ y ≤ 9999).
Proof.
  apply (dateKey_padding (sampleHost 0 noCache) (newDate 0 2024 2 15)).
  by vm_compute.
Defined.

(** C7 as stated fails: the year 999 is rendered in three digits. *)
Lemma dateKey_year_999 :
  timeValue (newDate 0 999 0 1) ≠ None ∧
  dateKey (sampleHost 0 noCache) (newDate 0 999 0 1) = "999-01-01" ∧
  isPaddedKey (dateKey (sampleHost 0 noCache) (newDate 0 999 0 1)) = false.
Proof. by vm_compute. Qed.

Example dateKey_2024_03_15 :
  dateKey (sampleHost 0 noCache) (newDate 0 2024 2 15) = "2024-03-15".
Proof. by vm_compute. Qed.

Example dateKey_year_12345 :
  dateKey (sampleHost 0 noCache) (newDate 0 12345 0 1) = "12345-01-01".
Proof. by vm_compute. Qed.

End KeyFacts.

(** ** The date extractor *)

Module ExtractorFacts.
Import JSDate LinearCalendar.

Section Extractor.
Variable host : Host.
Variable s : LinearCalendarSettings.

(** The loop over the configured fields appends, in order, the dates of
    the fields that have a non-empty value that parses. *)
Lemma fold_pushFieldDate fm fields dates :
  fold_left (pushFieldDate host fm) fields dates =
  dates ++ omap (λ field,
                   let value := property fm field in
                   if truthy value then parseDate host value else None)
                fields.
Proof.
  revert dates. induction fields as [|field fields IH]; intros dates; simpl.
  - by rewrite app_nil_r.
  - rewrite IH. unfold pushFieldDate.
    destruct (truthy _); [|done].
    destruct (parseDate _ _); [|done]. by rewrite <-app_assoc.
Qed.

Lemma extractDatesFromFile_sources f :
  extractDatesFromFile host s f =
  sourceDates host s f ++
  (if showFileCreationDates s && bool_decide (sourceDates host s f = [])
   then [newDateOfValue (stat_ctime f)] else []).
Proof.
  unfold extractDatesFromFile. cbv zeta.
  match goal with
  | |- (if _ && (length ?l =? 0)%nat then _ else _) = _ =>
      assert (l = sourceDates host s f) as ->
  end.
  { unfold sourceDates, frontmatterDates.
    destruct (parseDailyNoteDate host s f) as [d|]; simpl;
      destruct (getFileCache host f) as [cache|]; try done;
      destruct (frontmatter cache) as [fm|]; try done;
      apply fold_pushFieldDate. }
  destruct (sourceDates host s f) as [|d l]; simpl.
  - by destruct (showFileCreationDates s).
  - by rewrite !andb_false_r, app_nil_r.
Qed.

Lemma elem_of_sourceDates f d :
  d ∈ sourceDates host s f ↔
  parseDailyNoteDate host s f = Some d ∨
  ∃ cache fm field,
    getFileCache host f = Some cache ∧ frontmatter cache = Some fm ∧
    field ∈ dateFields s ∧ truthy (property fm field) = true ∧
    parseDate host (property fm field) = Some d.
Proof.
  unfold sourceDates, frontmatterDates. rewrite elem_of_app.
  assert (d ∈ option_list (parseDailyNoteDate host s f) ↔
          parseDailyNoteDate host s f = Some d) as ->.
  { destruct (parseDailyNoteDate _ _ _); simpl.
    - rewrite list_elem_of_singleton. split; congruence.
    - rewrite elem_of_nil. split; [tauto|congruence]. }
  destruct (getFileCache host f) as [cache|].
  2:{ rewrite elem_of_nil. split; [tauto|].
      by intros [?|(? & ? & ? & ? & _)]; [left|]. }
  destruct (frontmatter cache) as [fm|] eqn:Hfm.
  2:{ rewrite elem_of_nil. split; [tauto|].
      intros [?|(? & ? & ? & [= <-] & ? & _)]; [by left|congruence]. }
  rewrite list_elem_of_omap. split.
  - intros [Hd|(field & Hin & Hd)]; [by left|right].
    exists cache, fm, field.
    simpl in Hd. by destruct (truthy _) eqn:Ht.
  - intros [Hd|(cache' & fm' & field & [= <-] & Hfm' & Hin & Ht & Hd)];
      [by left|right].
    assert (fm' = fm) as -> by congruence.
    exists field. split; [done|]. simpl. by rewrite Ht.
Qed.

Lemma extractDatesFromFile_nonempty f :
  sourceDates host s f ≠ [] →
  extractDatesFromFile host s f = sourceDates host s f.
Proof.
  intros Hne. rewrite extractDatesFromFile_sources.
  rewrite bool_decide_eq_false_2 by done.
  by rewrite andb_false_r, app_nil_r.
Qed.

Lemma sourceDates_daily f d :
  parseDailyNoteDate host s f = Some d →
  sourceDates host s f = d :: frontmatterDates host s f.
Proof. unfold sourceDates. by intros ->. Qed.

(** C1. The creation-date fallback fires only when the filename and the
    frontmatter fields gave no date and the flag is on: as soon as one of
    them gives a date the extractor returns those dates and nothing
    else, flag or no flag; with none of them and the flag on it returns
    the creation date alone, and with the flag off nothing. The dates of
    the two sources are the strict parse of the filename and, for every
    configured field with a non-empty value, its parse. *)
Theorem creation_date_fallback f :
  (sourceDates host s f ≠ [] →
   extractDatesFromFile host s f = sourceDates host s f) ∧
  (sourceDates host s f = [] → showFileCreationDates s = true →
   extractDatesFromFile host s f = [newDateOfValue (stat_ctime f)]) ∧
  (sourceDates host s f = [] → showFileCreationDates s = false →
   extractDatesFromFile host s f = []) ∧
  (∀ d, d ∈ sourceDates host s f ↔
        parseDailyNoteDate host s f = Some d ∨
        ∃ cache fm field,
          getFileCache host f = Some cache ∧ frontmatter cache = Some fm ∧
          field ∈ dateFields s ∧ truthy (property fm field) = true ∧
          parseDate host (property fm field) = Some d).
Proof.
  split_and!.
  - apply extractDatesFromFile_nonempty.
  - rewrite extractDatesFromFile_sources. intros -> ->. done.
  - rewrite extractDatesFromFile_sources. intros -> ->. done.
  - apply elem_of_sourceDates.
Qed.

(** C6. With the folder "Daily" and the format "YYYY-MM-DD", the
    daily-note source of the note [Daily/2024-03-15.md] is the strict
    parse of its base name, 2024-03-15, whatever the metadata cache
    holds, and that date comes first in what the extractor returns; a
    note whose path does not start with the configured non-empty folder
    has no daily-note date. *)
Theorem daily_note_source f d :
  momentStrict host "2024-03-15" "YYYY-MM-DD" = Some d →
  (dailyNotesFolder s = "Daily" → dailyNoteFormat s = "YYYY-MM-DD" →
   path f = "Daily/2024-03-15.md" → basename f = "2024-03-15" →
   parseDailyNoteDate host s f = Some d ∧
   ∃ rest, extractDatesFromFile host s f = d :: rest) ∧
  (dailyNotesFolder s ≠ "" →
   JSString.startsWith (path f) (dailyNotesFolder s) = false →
   parseDailyNoteDate host s f = None).
Proof.
  intros Hparse. split.
  - intros Hfolder Hformat Hpath Hbase.
    assert (parseDailyNoteDate host s f = Some d) as Hd.
    { unfold parseDailyNoteDate.
      rewrite Hfolder, Hformat, Hpath, Hbase, Hparse. done. }
    split; [done|].
    rewrite extractDatesFromFile_nonempty;
      rewrite (sourceDates_daily f d Hd); [by eexists|done].
  - intros Hfolder Hstart. unfold parseDailyNoteDate.
    rewrite Hstart. apply String.eqb_neq in Hfolder. by rewrite Hfolder.
Qed.

End Extractor.

Import SampleHost.

Lemma creation_date_fallback_witness :
  extractDatesFromFile (sampleHost 0 sampleCache) dailySettings taskNote =
    [JSDate.newDate 0 2024 0 1; JSDate.newDate 0 2024 0 1] ∧
  extractDatesFromFile (sampleHost 0 sampleCache) dailySettings plainNote =
    [newDateOfValue 1700000000000].
Proof.
  destruct (creation_date_fallback (sampleHost 0 sampleCache) dailySettings
              taskNote) as (H1 & _).
  destruct (creation_date_fallback (sampleHost 0 sampleCache) dailySettings
              plainNote) as (_ & H2 & _).
  split.
  - rewrite H1; by vm_compute.
  - rewrite H2; by vm_compute.
Defined.

Lemma daily_note_source_witness :
  parseDailyNoteDate (sampleHost 0 sampleCache) dailySettings dailyNote =
    Some (JSDate.newDate 0 2024 2 15) ∧
  parseDailyNoteDate (sampleHost 0 sampleCache) dailySettings taskNote = None.
Proof.
  split.
  - apply (daily_note_source (sampleHost 0 sampleCache) dailySettings
             dailyNote (JSDate.newDate 0 2024 2 15)); by vm_compute.
  - apply (daily_note_source (sampleHost 0 sampleCache) dailySettings
             taskNote (JSDate.newDate 0 2024 2 15)); by vm_compute.
Defined.

(** The daily note also has a frontmatter date: both are returned, and
    the creation date is not. *)
Example extract_dailyNote :
  extractDatesFromFile (sampleHost 0 sampleCache) dailySettings dailyNote =
    [JSDate.newDate 0 2024 2 15; JSDate.newDate 0 2024 2 1].
Proof. by vm_compute. Qed.
End ExtractorFacts.

(** ** The event index builder *)

Module IndexFacts.
Import JSDate LinearCalendar.

Section Index.
Variable host : Host.
Variable s : LinearCalendarSettings.

Lemma eventsWithKey_snoc key evs e :
  eventsWithKey host key (evs ++ [e]) =
  eventsWithKey host key evs ++
  (if decide (dateKey host (startDate e) = key) then [e] else []).
Proof.
  unfold eventsWithKey. by rewrite filter_app.
Qed.

(** One [push]: the event goes to the end of the sequence of its key, and
    the other keys keep theirs. *)
Lemma pushEvent_grouped f m evs d :
  (∀ key, m !! key = grouped host evs key) →
  ∀ key, pushEvent host f m d !! key = grouped host (evs ++ [eventOf f d]) key.
Proof.
  intros Hm key. unfold pushEvent, grouped.
  rewrite eventsWithKey_snoc. simpl.
  fold (eventOf f d).
  destruct (decide (is_Some (m !! dateKey host d))) as [[l Hl]|Hnone].
  - rewrite Hl. destruct (decide (dateKey host d = key)) as [<-|Hne].
    + rewrite lookup_insert_eq.
      rewrite Hm in Hl. unfold grouped in Hl.
      destruct (eventsWithKey host _ evs) as [|e l'] eqn:He; [done|].
      injection Hl as <-. done.
    + rewrite lookup_insert_ne by done. rewrite Hm. unfold grouped.
      by rewrite app_nil_r.
  - rewrite lookup_insert_eq.
    destruct (decide (dateKey host d = key)) as [<-|Hne].
    + rewrite lookup_insert_eq.
      assert (m !! dateKey host d = None) as Hl.
      { destruct (m !! dateKey host d); [|done]. by destruct Hnone. }
      rewrite Hm in Hl. unfold grouped in Hl.
      by destruct (eventsWithKey host _ evs).
    + rewrite !lookup_insert_ne by done. rewrite Hm. unfold grouped.
      by rewrite app_nil_r.
Qed.

Lemma fold_pushEvent_grouped f dates m evs :
  (∀ key, m !! key = grouped host evs key) →
  ∀ key, fold_left (pushEvent host f) dates m !! key =
         grouped host (evs ++ (eventOf f <$> dates)) key.
Proof.
  revert m evs. induction dates as [|d dates IH]; intros m evs Hm key; simpl.
  - by rewrite app_nil_r.
  - rewrite (IH _ (evs ++ [eventOf f d])).
    + by rewrite <-app_assoc.
    + by apply pushEvent_grouped.
Qed.

Lemma fold_files_grouped files m evs :
  (∀ key, m !! key = grouped host evs key) →
  ∀ key,
    fold_left (λ events f,
                 fold_left (pushEvent host f) (extractDatesFromFile host s f) events)
              files m !! key =
    grouped host (evs ++ allEvents host s files) key.
Proof.
  revert m evs. induction files as [|f files IH]; intros m evs Hm key; simpl.
  - by rewrite app_nil_r.
  - rewrite (IH _ (evs ++ (eventOf f <$> extractDatesFromFile host s f))).
    + by rewrite <-app_assoc.
    + by apply fold_pushEvent_grouped.
Qed.

(** The index groups the events of the vault by key, in order, and keeps
    every one of them. *)
Lemma loadEvents_grouped files key :
  loadEvents host s files !! key = grouped host (allEvents host s files) key.
Proof.
  unfold loadEvents.
  rewrite (fold_files_grouped files ∅ []); [done|].
  intros key'. by rewrite lookup_empty.
Qed.

Lemma loadEvents_lookup files key l :
  loadEvents host s files !! key = Some l →
  l = eventsWithKey host key (allEvents host s files) ∧ l ≠ [].
Proof.
  rewrite loadEvents_grouped. unfold grouped.
  destruct (eventsWithKey _ _ _) as [|e l']; [done|]. by intros [= <-].
Qed.

(** C4. After a rebuild over any vault, every key of the index holds a
    sequence that is not empty, and every event of it has a start date
    whose key is that key. *)
Theorem index_keys files key l :
  loadEvents host s files !! key = Some l →
  l ≠ [] ∧ ∀ e, e ∈ l → dateKey host (startDate e) = key.
Proof.
  intros [-> Hne]%loadEvents_lookup. split; [done|].
  intros e He. unfold eventsWithKey in He.
  by apply list_elem_of_filter in He as [? _].
Qed.

Lemma omap_step {A B} (g : A → option B) (y : A) (L : list A) :
  omap g (y :: L) =
  match g y with Some b => b :: omap g L | None => omap g L end.
Proof. done. Qed.

Lemma filter_omap_one {A B} (g : A → option B) (P : B → Prop)
    `{∀ x, Decision (P x)} (L : list A) x d :
  x ∈ L → g x = Some d → P d → (1 ≤ length (filter P (omap g L)))%nat.
Proof.
  intros Hin Hg HP. induction L as [|y L IH]; [by apply elem_of_nil in Hin|].
  rewrite omap_step. apply elem_of_cons in Hin as [<-|Hin].
  - rewrite Hg, filter_cons_True, length_cons by done. lia.
  - specialize (IH Hin). destruct (g y) as [b|]; [|done].
    rewrite filter_cons. case_decide; rewrite ?length_cons; lia.
Qed.

Lemma filter_omap_two {A B} (g : A → option B) (P : B → Prop)
    `{∀ x, Decision (P x)} (L : list A) x1 x2 d1 d2 :
  x1 ≠ x2 → x1 ∈ L → x2 ∈ L → g x1 = Some d1 → g x2 = Some d2 →
  P d1 → P d2 → (2 ≤ length (filter P (omap g L)))%nat.
Proof.
  intros Hne Hin1 Hin2 Hg1 Hg2 HP1 HP2.
  induction L as [|y L IH]; [by apply elem_of_nil in Hin1|].
  rewrite omap_step. apply elem_of_cons in Hin1 as [<-|Hin1];
    apply elem_of_cons in Hin2 as [<-|Hin2]; try done.
  - rewrite Hg1, filter_cons_True, length_cons by done.
    pose proof (filter_omap_one g P L x2 d2 Hin2 Hg2 HP2). lia.
  - rewrite Hg2, filter_cons_True, length_cons by done.
    pose proof (filter_omap_one g P L x1 d1 Hin1 Hg1 HP1). lia.
  - specialize (IH Hin1 Hin2). destruct (g y) as [b|]; [|done].
    rewrite filter_cons. case_decide; rewrite ?length_cons; lia.
Qed.

Lemma length_filter_eventOf f key dates :
  length (filter (λ e, file e = f ∧ dateKey host (startDate e) = key)
                 (eventOf f <$> dates)) =
  length (filter (λ d, dateKey host d = key) dates).
Proof.
  induction dates as [|d dates IH]; [done|].
  rewrite fmap_cons, !filter_cons. simpl.
  destruct (decide (dateKey host d = key)).
  - rewrite decide_True by done. simpl. by rewrite IH.
  - rewrite decide_False by tauto. done.
Qed.

(** The events of a note in the sequence of a key are at least as many
    as the dates with that key the extractor returns for the note. *)
Lemma index_count files f key l :
  f ∈ files → loadEvents host s files !! key = Some l →
  (length (filter (λ d, dateKey host d = key) (extractDatesFromFile host s f))
   ≤ length (filter (λ e, file e = f) l))%nat.
Proof.
  intros (pre & post & ->)%list_elem_of_split [-> _]%loadEvents_lookup.
  unfold eventsWithKey, allEvents.
  rewrite bind_app, bind_cons, list_filter_filter, !filter_app, !length_app.
  rewrite length_filter_eventOf. lia.
Qed.

(** C5. A note with two distinct configured fields whose values parse to
    dates with the same key gets two events under that key: the index
    builder does not deduplicate by note and date. *)
Theorem no_deduplication files f cache fm field1 field2 d1 d2 key :
  f ∈ files →
  getFileCache host f = Some cache → frontmatter cache = Some fm →
  field1 ≠ field2 → field1 ∈ dateFields s → field2 ∈ dateFields s →
  truthy (property fm field1) = true → truthy (property fm field2) = true →
  parseDate host (property fm field1) = Some d1 →
  parseDate host (property fm field2) = Some d2 →
  dateKey host d1 = key → dateKey host d2 = key →
  ∃ l, loadEvents host s files !! key = Some l ∧
       (2 ≤ length (filter (λ e, file e = f) l))%nat.
Proof.
  intros Hf Hcache Hfm Hne Hin1 Hin2 Ht1 Ht2 Hp1 Hp2 Hk1 Hk2.
  assert (2 ≤ length (filter (λ d, dateKey host d = key)
                             (extractDatesFromFile host s f)))%nat as Hcount.
  { rewrite ExtractorFacts.extractDatesFromFile_sources.
    unfold sourceDates, frontmatterDates. rewrite Hcache, Hfm.
    rewrite !filter_app, !length_app.
    pose proof (filter_omap_two
      (λ field, let value := property fm field in
                if truthy value then parseDate host value else None)
      (λ d, dateKey host d = key) (dateFields s) field1 field2 d1 d2) as Htwo.
    simpl in Htwo. rewrite Ht1, Ht2 in Htwo.
    specialize (Htwo Hne Hin1 Hin2 Hp1 Hp2 Hk1 Hk2). lia. }
  destruct (loadEvents host s files !! key) as [l|] eqn:Hl.
  - exists l. split; [done|].
    pose proof (index_count files f key l Hf Hl). lia.
  - exfalso. rewrite loadEvents_grouped in Hl. unfold grouped in Hl.
    destruct (eventsWithKey host key (allEvents host s files)) eqn:He; [|done].
    apply list_elem_of_split in Hf as (pre & post & ->).
    unfold eventsWithKey, allEvents in He.
    rewrite bind_app, bind_cons, !filter_app in He.
    apply app_eq_nil in He as [_ He]. apply app_eq_nil in He as [He _].
    apply (f_equal length) in He.
    pose proof (length_filter_eventOf f key (extractDatesFromFile host s f)) as Heq.
    rewrite <-list_filter_filter in Heq.
    pose proof (length_filter (λ e, file e = f)
      (filter (λ e, dateKey host (startDate e) = key)
              (eventOf f <$> extractDatesFromFile host s f))) as Hle.
    rewrite He in Hle. simpl in *. lia.
Qed.

End Index.

Import SampleHost.

Lemma index_keys_witness :
  [eventOf taskNote (JSDate.newDate 0 2024 0 1);
   eventOf taskNote (JSDate.newDate 0 2024 0 1)] ≠ [] ∧
  ∀ e, e ∈ [eventOf taskNote (JSDate.newDate 0 2024 0 1);
            eventOf taskNote (JSDate.newDate 0 2024 0 1)] →
       dateKey (sampleHost 0 sampleCache) (startDate e) = "2024-01-01".
Proof.
  apply (index_keys (sampleHost 0 sampleCache) dailySettings
           [dailyNote; taskNote; plainNote] "2024-01-01").
  by vm_compute.
Defined.

Lemma no_deduplication_witness :
  ∃ l, loadEvents (sampleHost 0 sampleCache) dailySettings
         [dailyNote; taskNote; plainNote] !! "2024-01-01" = Some l ∧
       (2 ≤ length (filter (λ e, file e = taskNote) l))%nat.
Proof.
  apply (no_deduplication (sampleHost 0 sampleCache) dailySettings
           [dailyNote; taskNote; plainNote] taskNote
           {| frontmatter :=
                Some (<["date" := VString "2024-01-01"]>
                        (<["due" := VString "2024-01-01"]> ∅)) |}
           (<["date" := VString "2024-01-01"]>
              (<["due" := VString "2024-01-01"]> ∅))
           "date" "due" (JSDate.newDate 0 2024 0 1) (JSDate.newDate 0 2024 0 1));
    try (by vm_compute).
  - apply list_elem_of_In. simpl. tauto.
  - apply list_elem_of_In. simpl. tauto.
  - apply list_elem_of_In. simpl. tauto.
Defined.

(** The example of the specification, run: the note with [date] and [due]
    on the same day is twice under that day. *)
Example loadEvents_sample :
  loadEvents (sampleHost 0 sampleCache) dailySettings
    [dailyNote; taskNote; plainNote] !! "2024-01-01" =
  Some [eventOf taskNote (JSDate.newDate 0 2024 0 1);
        eventOf taskNote (JSDate.newDate 0 2024 0 1)].
Proof. by vm_compute. Qed.
End IndexFacts.

(** ** The scale controls *)

Module ScaleFacts.
Import LinearCalendar.
Local Open Scope Q_scope.

Lemma max_spec a b : a <= JSMath.max a b ∧ b <= JSMath.max a b ∧
                     (JSMath.max a b = a ∨ JSMath.max a b = b).
Proof.
  unfold JSMath.max. destruct (Qle_bool a b) eqn:H.
  - apply Qle_bool_iff in H. split_and!; [done|lra|by right].
  - assert (¬ a <= b) by (rewrite <-Qle_bool_iff; congruence).
    split_and!; [lra|lra|by left].
Qed.

Lemma min_spec a b : JSMath.min a b <= a ∧ JSMath.min a b <= b ∧
                     (JSMath.min a b = a ∨ JSMath.min a b = b).
Proof.
  unfold JSMath.min. destruct (Qle_bool a b) eqn:H.
  - apply Qle_bool_iff in H. split_and!; [lra|done|by left].
  - assert (¬ a <= b) by (rewrite <-Qle_bool_iff; congruence).
    split_and!; [lra|lra|by right].
Qed.

(** The clamp of [adjustScale]. *)
Lemma clamp_spec lo hi x :
  lo <= hi →
  lo <= JSMath.max lo (JSMath.min hi x) <= hi ∧
  (x <= lo → JSMath.max lo (JSMath.min hi x) == lo) ∧
  (hi <= x → JSMath.max lo (JSMath.min hi x) == hi) ∧
  (lo <= x <= hi → JSMath.max lo (JSMath.min hi x) == x).
Proof.
  intros Hlh.
  destruct (max_spec lo (JSMath.min hi x)) as (H1 & H2 & H3).
  destruct (min_spec hi x) as (H4 & H5 & H6).
  split_and!.
  - done.
  - destruct H3 as [H3|H3]; rewrite H3 in *; lra.
  - intros Hx. destruct H3 as [H3|H3]; rewrite H3 in *;
      destruct H6 as [H6|H6]; rewrite H6 in *; lra.
  - intros Hx. destruct H3 as [H3|H3]; rewrite H3 in *;
      destruct H6 as [H6|H6]; rewrite H6 in *; lra.
  - intros Hx. destruct H3 as [H3|H3]; rewrite H3 in *;
      destruct H6 as [H6|H6]; rewrite H6 in *; lra.
Qed.

(** [Math.round(c * 10) / 10]: a multiple of one tenth, at most one
    twentieth away. *)
Lemma snap_spec c :
  ∃ k : Z,
    JSMath.round (c * 10) / 10 == inject_Z k / 10 ∧
    k = Qfloor (c * 10 + (1 # 2)) ∧
    c - (1 # 20) < inject_Z k / 10 <= c + (1 # 20).
Proof.
  exists (Qfloor (c * 10 + (1 # 2))). split; [done|]. split; [done|].
  unfold JSMath.round.
  pose proof (Qfloor_le (c * 10 + (1 # 2))) as Hle.
  pose proof (Qlt_floor (c * 10 + (1 # 2))) as Hlt.
  rewrite inject_Z_plus in Hlt.
  change (inject_Z 1) with 1 in Hlt.
  generalize dependent (inject_Z (Qfloor (c * 10 + (1 # 2)))). intros k Hle Hlt.
  split.
  - apply Qlt_shift_div_l; lra.
  - apply Qle_shift_div_r; lra.
Qed.

Lemma Qfloor_half (n : Z) : Qfloor (inject_Z n + (1 # 2)) = n.
Proof.
  pose proof (Qfloor_le (inject_Z n + (1 # 2))) as Hle.
  pose proof (Qlt_floor (inject_Z n + (1 # 2))) as Hlt.
  rewrite inject_Z_plus in Hlt. change (inject_Z 1) with 1 in Hlt.
  assert (inject_Z (Qfloor (inject_Z n + (1 # 2))) < inject_Z (n + 1)) as H1.
  { rewrite inject_Z_plus. change (inject_Z 1) with 1.
    generalize dependent (inject_Z (Qfloor (inject_Z n + (1 # 2)))).
    generalize (inject_Z n). intros. lra. }
  assert (inject_Z n < inject_Z (Qfloor (inject_Z n + (1 # 2)) + 1)) as H2.
  { rewrite inject_Z_plus. change (inject_Z 1) with 1. clear H1.
    generalize dependent (inject_Z (Qfloor (inject_Z n + (1 # 2)))).
    generalize (inject_Z n). intros. lra. }
  rewrite <-Zlt_Qlt in H1, H2. lia.
Qed.

(** A value that is a multiple of one tenth already is not moved. *)
Lemma snap_tenth (n : Z) c :
  c == inject_Z n / 10 → JSMath.round (c * 10) / 10 == inject_Z n / 10.
Proof.
  intros Hc. unfold JSMath.round.
  assert (c * 10 + (1 # 2) == inject_Z n + (1 # 2)) as -> by (rewrite Hc; field).
  by rewrite Qfloor_half.
Qed.

(** The doubles agree with the decimal reading on the tenths: from every
    width k/10 (k from 5 to 50) and for the four steps the buttons and the
    wheel use (0.1, -0.1, 0.2, -0.2), the double the host stores is the
    double of the multiple of 0.1 the decimal reading gives. *)
Example adjustScale_on_doubles :
  forallb
    (λ k,
       forallb
         (λ dk,
            let expected := Z.max 5 (Z.min 50 (k + dk)) in
            PrimFloat.eqb
              (adjustedScale64 AxisX
                 (JSDouble.ofZ k / JSDouble.ofZ 10)%float
                 (JSDouble.ofZ dk / JSDouble.ofZ 10)%float)
              (JSDouble.ofZ expected / JSDouble.ofZ 10)%float
            && Qeq_bool
                 (JSMath.round
                    (JSMath.max (1 # 2)
                       (JSMath.min 5 (inject_Z k / 10 + inject_Z dk / 10)) * 10) / 10)
                 (inject_Z expected / 10))
         [1; -1; 2; -2]%Z)
    (seqZ 5 46) = true.
Proof. by vm_compute. Qed.

Example adjustScale_steps :
  let p := mkPlugin (DEFAULT_SETTINGS 2024) None in
  scaleX (settings (adjustScale AxisX (-(2 # 10)) p)) == 8 # 10 ∧
  scaleX (settings (adjustScale AxisX (-(7 # 10)) p)) == 1 # 2 ∧
  scaleX (settings (adjustScale AxisX 7 p)) == 5 ∧
  scaleX (settings (adjustScale AxisX (26 # 100) p)) == 13 # 10 ∧
  fontScale (settings (adjustScale AxisFont 7 p)) == 3.
Proof. by vm_compute. Qed.

End ScaleFacts.

(** ** The scale arithmetic in binary64 *)

Module Binary64Facts.
Import LinearCalendar.

























(** Where the exact sum is a decimal tie the rounded sum decides: from
    1.15 a step of -0.1 gives 1.0 (the sum is the double just below 1.05),
    from 0.85 a step of -0.2 gives 0.6, from 0.75 a step of 0.1 gives 0.9;
    the decimal reading [adjustScale] rounds the first two up, to 1.1 and
    0.7. A sum that is not a number is stored as it is. *)
#[warnings="-inexact-float"]
Example adjustScale_decimal_ties :
  adjustedScale64 AxisX 1.15 (-0.1) = 1%float ∧
  adjustedScale64 AxisX 0.85 (-0.2) = 0.6%float ∧
  adjustedScale64 AxisX 0.75 0.1 = 0.9%float ∧
  (JSMath.round (JSMath.max (1 # 2) (JSMath.min 5 ((115 # 100) - (1 # 10))) * 10) / 10
   == 11 # 10)%Q ∧
  (JSMath.round (JSMath.max (1 # 2) (JSMath.min 5 ((85 # 100) - (2 # 10))) * 10) / 10
   == 7 # 10)%Q ∧
  PrimFloat.is_nan (adjustedScale64 AxisX PrimFloat.nan 0.1) = true.
Proof. vm_compute. repeat split; reflexivity. Qed.

(** On the tenths the two readings agree, on the three axes: from a scale
    [k / 10] a step [j / 10] that stays inside the range of the axis
    stores the double of [(k + j) / 10], and the opposite step the double
    of [k / 10] again. *)
Example scale_steps_on_doubles :
  forallb
    (λ axis,
       let top := match axis with AxisFont => 30 | _ => 50 end in
       forallb
         (λ k,
            forallb
              (λ j,
                 let tenth (n : Z) := (JSDouble.ofZ n / JSDouble.ofZ 10)%float in
                 let stepped := adjustedScale64 axis (tenth k) (tenth j) in
                 PrimFloat.eqb stepped (tenth (k + j))
                 && PrimFloat.eqb (adjustedScale64 axis stepped (tenth (- j)))
                      (tenth k))
              (seqZ (5 - k) (top - 4)))
         (seqZ 5 (top - 4)))
    [AxisX; AxisY; AxisFont] = true.
Proof. vm_compute. reflexivity. Qed.

(** A default of [n / 100] is shown as [n] percent on the host as well:
    [Math.round(n / 100 * 100)] is [n] for every [n] from 50 to 500. *)
Example default_percent_on_doubles :
  forallb
    (λ n, PrimFloat.eqb
            (JSDouble.round (JSDouble.ofZ n / JSDouble.ofZ 100 * JSDouble.ofZ 100))
            (JSDouble.ofZ n))
    (seqZ 50 451) = true.
Proof. vm_compute. reflexivity. Qed.

End Binary64Facts.

(** ** The label inputs of the settings tab *)

Module SettingsFacts.
Import LinearCalendar.

Lemma append_cons (c : ascii) (a b : string) :
  String c a +:+ b = String c (a +:+ b).
Proof. done. Qed.

Lemma append_empty_r (a : string) : a +:+ "" = a.
Proof. induction a as [|c a IH]; [done|by rewrite append_cons, IH]. Qed.

Lemma append_assoc (a b c : string) : (a +:+ b) +:+ c = a +:+ (b +:+ c).
Proof. induction a as [|x a IH]; [done|by rewrite !append_cons, IH]. Qed.

Lemma rev_app_append (a b : string) :
  String.rev_app a b = String.rev_app a "" +:+ b.
Proof.
  revert b. induction a as [|c a IH]; intros b; simpl; [done|].
  rewrite (IH (String c b)), (IH (String c "")), append_assoc. done.
Qed.

Lemma rev_cons (c : ascii) (a : string) :
  String.rev (String c a) = String.rev a +:+ String c "".
Proof. unfold String.rev. simpl. apply rev_app_append. Qed.

Lemma split_go_cons sep cur str :
  ∃ piece rest, JSString.split_go sep cur str = piece :: rest.
Proof.
  revert cur. induction str as [|c r IH]; intros cur; simpl.
  - by eexists _, _.
  - case_decide; [by eexists _, _|apply IH].
Qed.

Lemma join_split_go sep cur str :
  JSString.join sep (JSString.split_go sep cur str) = String.rev cur +:+ str.
Proof.
  revert cur. induction str as [|c r IH]; intros cur; simpl.
  - by rewrite append_empty_r.
  - case_decide as Hc.
    + subst c. specialize (IH "").
      destruct (split_go_cons sep "" r) as (piece & rest & Hs).
      rewrite Hs in *.
      change (JSString.join sep (String.rev cur :: piece :: rest))
        with (String.rev cur +:+ String sep (JSString.join sep (piece :: rest))).
      by rewrite IH.
    + rewrite IH, rev_cons, append_assoc. done.
Qed.

(** Splitting loses nothing: joining the pieces with the separator gives
    the input back. *)
Lemma join_split sep str : JSString.join sep (JSString.split sep str) = str.
Proof. apply join_split_go. Qed.

Lemma rev_append (a b : string) :
  String.rev (a +:+ b) = String.rev b +:+ String.rev a.
Proof.
  induction a as [|c a IH].
  - by rewrite append_empty_r.
  - by rewrite append_cons, !rev_cons, IH, append_assoc.
Qed.

Lemma rev_involutive (a : string) : String.rev (String.rev a) = a.
Proof.
  induction a as [|c a IH]; [done|].
  by rewrite rev_cons, rev_append, IH.
Qed.

Lemma trimStart_idempotent str :
  JSString.trimStart (JSString.trimStart str) = JSString.trimStart str.
Proof.
  induction str as [|c r IH]; [done|]. simpl.
  destruct (JSString.isWhiteSpace c) eqn:Hc; [done|]. simpl. by rewrite Hc.
Qed.

(** What [trimStart] leaves is empty or starts with a character that is
    not white space. *)
Lemma trimStart_head str :
  JSString.trimStart str = "" ∨
  ∃ c r, JSString.trimStart str = String c r ∧ JSString.isWhiteSpace c = false.
Proof.
  induction str as [|c r IH]; [by left|]. simpl.
  destruct (JSString.isWhiteSpace c) eqn:Hc; [done|]. right. by exists c, r.
Qed.

Lemma trimStart_last u c :
  JSString.isWhiteSpace c = false →
  ∃ u', JSString.trimStart (u +:+ String c "") = u' +:+ String c "".
Proof.
  intros Hc. induction u as [|x u IH].
  - exists "". simpl. by rewrite Hc.
  - rewrite append_cons. simpl. destruct (JSString.isWhiteSpace x); [done|].
    exists (String x u). done.
Qed.

Lemma trimEnd_head c r :
  JSString.isWhiteSpace c = false →
  ∃ r', JSString.trimEnd (String c r) = String c r'.
Proof.
  intros Hc. unfold JSString.trimEnd. rewrite rev_cons.
  destruct (trimStart_last (String.rev r) c Hc) as (u' & ->).
  rewrite rev_append. by eexists.
Qed.

(** A trimmed string has no white space left at either end. *)
Lemma trim_trimmed str :
  JSString.trimStart (JSString.trim str) = JSString.trim str ∧
  JSString.trimEnd (JSString.trim str) = JSString.trim str.
Proof.
  unfold JSString.trim. split.
  - destruct (trimStart_head str) as [->|(c & r & -> & Hc)]; [done|].
    destruct (trimEnd_head c r Hc) as (r' & ->). simpl. by rewrite Hc.
  - unfold JSString.trimEnd. by rewrite rev_involutive, trimStart_idempotent.
Qed.

(** The labels are the trimmed pieces that are not empty, in order. *)
Lemma elem_of_parseLabels value label :
  label ∈ parseLabels value ↔
  label ≠ "" ∧ ∃ piece, label = JSString.trim piece ∧
                        piece ∈ JSString.split "," value.
Proof.
  unfold parseLabels. rewrite list_elem_of_filter, list_elem_of_fmap.
  assert ((0 < String.length label)%nat ↔ label ≠ "") as ->; [|done].
  destruct label; simpl; split; (done || lia).
Qed.

(** C9. The weekday labels are replaced, and the settings saved, only when
    the input gives exactly 7 labels, and the month labels only when it
    gives exactly 12; on any other input the plugin keeps its settings and
    what it had saved, unchanged. The labels of an input are its
    comma-separated pieces, trimmed, the empty ones dropped. *)
Theorem label_inputs value p :
  (length (parseLabels value) = 7%nat →
   settings (onChangeWeekdayLabels value p)
     = setWeekdayLabels (parseLabels value) (settings p) ∧
   weekdayLabels (settings (onChangeWeekdayLabels value p)) = parseLabels value ∧
   monthLabels (settings (onChangeWeekdayLabels value p))
     = monthLabels (settings p) ∧
   savedData (onChangeWeekdayLabels value p)
     = Some (settings (onChangeWeekdayLabels value p))) ∧
  (length (parseLabels value) ≠ 7%nat → onChangeWeekdayLabels value p = p) ∧
  (length (parseLabels value) = 12%nat →
   settings (onChangeMonthLabels value p)
     = setMonthLabels (parseLabels value) (settings p) ∧
   monthLabels (settings (onChangeMonthLabels value p)) = parseLabels value ∧
   weekdayLabels (settings (onChangeMonthLabels value p))
     = weekdayLabels (settings p) ∧
   savedData (onChangeMonthLabels value p)
     = Some (settings (onChangeMonthLabels value p))) ∧
  (length (parseLabels value) ≠ 12%nat → onChangeMonthLabels value p = p) ∧
  (∀ label,
     label ∈ parseLabels value ↔
     label ≠ "" ∧ ∃ piece, label = JSString.trim piece ∧
                           piece ∈ JSString.split "," value) ∧
  JSString.join "," (JSString.split "," value) = value.
Proof.
  unfold onChangeWeekdayLabels, onChangeMonthLabels. split_and!.
  - intros ->. done.
  - intros Hne. apply Nat.eqb_neq in Hne. by rewrite Hne.
  - intros ->. done.
  - intros Hne. apply Nat.eqb_neq in Hne. by rewrite Hne.
  - apply elem_of_parseLabels.
  - apply join_split.
Qed.

Example parseLabels_samples :
  parseLabels "M, T, W, T, F, S, S" = ["M"; "T"; "W"; "T"; "F"; "S"; "S"] ∧
  parseLabels " Mo ,Tu,, We ," = ["Mo"; "Tu"; "We"] ∧
  parseLabels "" = [] ∧
  JSString.split "," "" = [""] ∧
  JSString.split "," "a,,b," = ["a"; ""; "b"; ""].
Proof. by vm_compute. Qed.

Example weekday_labels_rejected :
  let p := mkPlugin (DEFAULT_SETTINGS 2024) None in
  onChangeWeekdayLabels "Mon, Tue, Wed" p = p ∧
  weekdayLabels (settings (onChangeWeekdayLabels "1,2,3,4,5,6,7" p))
    = ["1"; "2"; "3"; "4"; "5"; "6"; "7"].
Proof. by vm_compute. Qed.

End SettingsFacts.

(** ** The events of a day cell *)

Module RenderFacts.
Import JSDate LinearCalendar.

Lemma length_substring0 n str :
  String.length (JSString.substring0 n str) = (n `min` String.length str)%nat.
Proof.
  unfold JSString.substring0. revert str.
  induction n as [|n IH]; intros [|c r]; simpl; try done.
  by rewrite IH.
Qed.

Lemma substring0_prefix n str :
  String.prefix (JSString.substring0 n str) str = true.
Proof.
  unfold JSString.substring0. revert str.
  induction n as [|n IH]; intros [|c r]; simpl; try done.
  rewrite IH. by destruct (ascii_dec c c).
Qed.

(** The row of a month holds, between the empty cells that pad it, one
    day cell for every day from 1 to the number of days. *)
Lemma renderMonth_cells host s events today year month maxColumns :
  ∃ label leading trailing isCurrentMonth,
    renderMonth host s events today year month maxColumns =
    El "linear-calendar-row" [] None
       [label;
        El "linear-calendar-days-container" [] None
           (leading ++
            (renderDayCell host s events today year month
               (monthOffset host year month) isCurrentMonth
             <$> columns (Some 1) (Num.add (daysInMonth host year month) (Some 1)))
            ++ trailing)].
Proof. by eexists _, _, _, _. Qed.

Lemma columns_days (n : Z) :
  columns (Some 1) (Num.add (Some n) (Some 1)) = seqZ 1 n.
Proof. unfold columns. simpl. f_equal. lia. Qed.

(** C10. Under a day cell, after the day number, comes what
    [renderDayEvents] builds for the events of that day: nothing for a
    day without events, else one container holding a pill for each of the
    first three events, in order, its text the first 10 characters of the
    note title, followed, exactly when there are more than 3 events, by
    one marker "+N" with N the number of events minus 3. *)
Theorem day_events_rendering host s events today year month offset isCurrentMonth
    day dayEvents :
  el_children (renderDayCell host s events today year month offset
                 isCurrentMonth day)
    = El "linear-calendar-day-number" [] (Some (pretty day)) []
      :: renderDayEvents
           (default [] (events !! dateKey host (newDate (LocalTZA host) year month day))) ∧
  (dayEvents = [] → renderDayEvents dayEvents = []) ∧
  (dayEvents ≠ [] →
   ∃ pills more,
     renderDayEvents dayEvents =
       [El "linear-calendar-events" [] None (pills ++ more)] ∧
     pills = pill <$> take 3 dayEvents ∧
     (length pills = length dayEvents `min` 3)%nat ∧
     (∀ e, e ∈ pills →
        el_cls e = "linear-calendar-event" ∧
        ∃ event text, event ∈ dayEvents ∧ el_text e = Some text ∧
                      text = JSString.substring0 10 (title event) ∧
                      (String.length text ≤ 10)%nat ∧
                      String.prefix text (title event) = true) ∧
     ((length dayEvents ≤ 3)%nat → more = []) ∧
     ((3 < length dayEvents)%nat →
      more = [El "linear-calendar-more" []
                (Some ("+" +:+ pretty (Z.of_nat (length dayEvents) - 3))) []])).
Proof.
  split_and!.
  - done.
  - by intros ->.
  - intros Hne. unfold renderDayEvents.
    destruct dayEvents as [|ev rest]; [done|].
    change (0 <? length (ev :: rest))%nat with true. cbv iota.
    eexists _, _. split; [done|]. split_and!.
    + done.
    + rewrite length_fmap, length_take. lia.
    + intros e (event & -> & Hin)%list_elem_of_fmap. split; [done|].
      exists event, (JSString.substring0 10 (title event)).
      split_and!; try done.
      * by eapply subseteq_take.
      * rewrite length_substring0. lia.
      * apply substring0_prefix.
    + intros Hle. destruct (Nat.ltb_spec 3 (length (ev :: rest))); [lia|done].
    + intros Hlt. destruct (Nat.ltb_spec 3 (length (ev :: rest))); [done|lia].
Qed.

Import SampleHost.

(** Five events on one day: three pills and the marker "+2". *)
Example renderDayEvents_five :
  el_text <$>
    (renderDayEvents
       ((λ t, eventOf (mkTFile (t +:+ ".md") t 0) (newDate 0 2024 5 1))
        <$> ["a"; "A note with a long title"; "c"; "d"; "e"])
     ≫= el_children)
  = [Some "a"; Some "A note wit"; Some "c"; Some "+2"].
Proof. by vm_compute. Qed.

End RenderFacts.

(** ** The rows of the grid *)

Module GridFacts.
Import ES ESFacts JSDate DateFacts LinearCalendar LayoutFacts SampleHost.

Lemma MakeDay_date y m date : MakeDay y m date = MakeDay y m 1 + date - 1.
Proof. unfold MakeDay. lia. Qed.

(** In the years from -271820 to 275759 every day of every month is a date
    the host can represent. *)
Lemma month_numbers host year month :
  Z.abs (LocalTZA host) ≤ msPerDay → -271820 ≤ year ≤ 275759 → 0 ≤ month ≤ 11 →
  ∃ o,
    monthOffset host year month = Some o ∧ 0 ≤ o ≤ 6 ∧
    o = (WeekDay (MakeDate (MakeDay (MakeFullYear year) month 1) 0) + 6) mod 7 ∧
    daysInMonth host year month
      = Some (GregorianMonthLength (MakeFullYear year) month).
Proof.
  intros Htza Hy Hm.
  pose proof (GregorianMonthLength_range (MakeFullYear year) month) as Hlen.
  assert (timeValue (newDate (LocalTZA host) year month 1) ≠ None) as Hfirst
    by (apply newDate_valid; [done|done|done|lia]).
  assert (timeValue (newDate (LocalTZA host) year (month + 1) 0) ≠ None) as Hlast.
  { rewrite newDate_zeroth by done. apply newDate_valid; [done|done|done|lia]. }
  assert (getDay (LocalTZA host) (newDate (LocalTZA host) year month 1)
          = Some (WeekDay (MakeDate (MakeDay (MakeFullYear year) month 1) 0)))
    as Hw.
  { unfold getDay, newDate in *. simpl in *.
    destruct (TimeClip _) as [t|] eqn:Ht; [|done]. simpl.
    unfold TimeClip in Ht. case_match; [|done]. injection Ht as <-.
    by rewrite LocalTime_UTC. }
  eexists. split; [by apply monthOffset_of_getDay|].
  pose proof (WeekDay_range (MakeDate (MakeDay (MakeFullYear year) month 1) 0)).
  split_and!; [Z.div_mod_to_equations; lia..|done|].
  by apply daysInMonth_Gregorian.
Qed.

Lemma length_columns a b : a ≤ b → length (columns (Some a) (Some b)) = Z.to_nat (b - a).
Proof. intros. unfold columns. by rewrite length_seqZ. Qed.

Lemma monthCells_renderMonth host s events today year month maxColumns :
  monthCells (renderMonth host s events today year month maxColumns) =
  (emptyCell <$> columns (Some 0) (monthOffset host year month)) ++
  (renderDayCell host s events today year month (monthOffset host year month)
     (bool_decide (Some year = getFullYear (LocalTZA host) today)
      && bool_decide (Some month = getMonth (LocalTZA host) today))
   <$> columns (Some 1) (Num.add (daysInMonth host year month) (Some 1))) ++
  (emptyCell <$> columns (endColumn host year month) maxColumns).
Proof. done. Qed.

Lemma children_renderWeekdayHeader maxColumns labels :
  el_children (renderWeekdayHeader maxColumns labels) =
  El "linear-calendar-month-label" [] None []
  :: (headerCell labels <$> columns (Some 0) maxColumns).
Proof. done. Qed.

(** The cells of a month row: the empty cells of the offset, the day cells,
    and empty cells up to the width of the grid. *)
Lemma row_width host s events today year month :
  Z.abs (LocalTZA host) ≤ msPerDay → -271820 ≤ year ≤ 275759 → 0 ≤ month ≤ 11 →
  ∃ c o n,
    calculateMaxColumns host year = Some c ∧
    monthOffset host year month = Some o ∧
    daysInMonth host year month = Some n ∧
    o + n ≤ c ∧
    length (monthCells (renderMonth host s events today year month (Some c)))
      = Z.to_nat c ∧
    length (el_children (renderWeekdayHeader (Some c) (weekdayLabels s)))
      = S (Z.to_nat c) ∧
    (∀ i, (i < Z.to_nat o)%nat →
       monthCells (renderMonth host s events today year month (Some c)) !! i
         = Some (emptyCell (Z.of_nat i))) ∧
    (∀ i, (Z.to_nat (o + n) ≤ i < Z.to_nat c)%nat →
       monthCells (renderMonth host s events today year month (Some c)) !! i
         = Some (emptyCell (Z.of_nat i))).
Proof.
  intros Htza Hy Hm.
  destruct (month_numbers host year month Htza Hy Hm) as (o & Ho & Hor & _ & Hn).
  set (n := GregorianMonthLength (MakeFullYear year) month) in *.
  pose proof (GregorianMonthLength_range (MakeFullYear year) month) as Hnr.
  fold n in Hnr.
  destruct (calculateMaxColumns_max host year) as (c & Hc & Hcr & Hall & _).
  assert (endColumn host year month = Some (o + n)) as He
    by (unfold endColumn; by rewrite Ho, Hn).
  pose proof (Hall month (o + n) Hm He) as Hle.
  exists c, o, n. split_and!; try done.
  - rewrite monthCells_renderMonth, He, Ho, Hn. simpl Num.add.
    rewrite !length_app, !length_fmap, !length_columns by lia. lia.
  - rewrite children_renderWeekdayHeader, length_cons, length_fmap,
      length_columns by lia.
    f_equal. lia.
  - intros i Hi. rewrite monthCells_renderMonth, Ho.
    rewrite lookup_app_l by (rewrite length_fmap, length_columns by lia; lia).
    rewrite list_lookup_fmap. unfold columns.
    rewrite lookup_seqZ_lt by lia. simpl.
    first [done | do 2 f_equal; lia].
  - intros i Hi. rewrite monthCells_renderMonth, He, Ho, Hn. simpl Num.add.
    rewrite lookup_app_r by (rewrite length_fmap, length_columns by lia; lia).
    rewrite lookup_app_r
      by (rewrite !length_fmap, !length_columns by lia; lia).
    rewrite !length_fmap, !length_columns by lia.
    rewrite list_lookup_fmap. unfold columns.
    rewrite lookup_seqZ_lt by lia. simpl.
    first [done | do 2 f_equal; lia].
Qed.

Lemma getDay_newDate tza year month date :
  timeValue (newDate tza year month date) ≠ None →
  getDay tza (newDate tza year month date)
  = Some (WeekDay (MakeDate (MakeDay (MakeFullYear year) month date) 0)).
Proof.
  unfold getDay, newDate. simpl.
  destruct (TimeClip _) as [t|] eqn:Ht; [intros _|done]. simpl.
  unfold TimeClip in Ht. case_match; [|done]. injection Ht as <-.
  by rewrite LocalTime_UTC.
Qed.

Lemma isWeekend_column col :
  0 ≤ col → isWeekend (Some col) = bool_decide (col mod 7 = 5 ∨ col mod 7 = 6).
Proof.
  intros Hc. unfold isWeekend. simpl. rewrite Z.rem_mod_nonneg by lia.
  rewrite <-bool_decide_or. apply bool_decide_ext.
  split; (intros [H|H]; [left|right]); congruence.
Qed.

(** Every row of the grid has the same number of cells: the header row,
    after its corner cell, and each of the twelve month rows have
    [calculateMaxColumns] cells, for the years from -271820 to 275759. *)
Theorem grid_is_rectangular host s events today :
  Z.abs (LocalTZA host) ≤ msPerDay → -271820 ≤ year s ≤ 275759 →
  ∃ c header months,
    calculateMaxColumns host (year s) = Some c ∧
    renderGridRows host s events today = header :: months ∧
    length months = 12%nat ∧
    length (el_children header) = S (Z.to_nat c) ∧
    ∀ row, row ∈ months → length (monthCells row) = Z.to_nat c.
Proof.
  intros Htza Hy.
  destruct (calculateMaxColumns_max host (year s)) as (c & Hc & _).
  exists c. eexists _, _. split; [done|]. split; [done|].
  split; [by rewrite length_fmap, length_seqZ|]. rewrite Hc. split.
  - destruct (row_width host s events today (year s) 0 Htza Hy ltac:(lia))
      as (c' & o & n & Hc' & _ & _ & _ & _ & Hh & _).
    rewrite Hc in Hc'. by injection Hc' as <-.
  - intros row (month & -> & Hm%elem_of_seqZ)%list_elem_of_fmap.
    destruct (row_width host s events today (year s) month Htza Hy ltac:(lia))
      as (c' & o & n & Hc' & _ & _ & _ & Hlen & _).
    rewrite Hc in Hc'. by injection Hc' as <-.
Qed.

Lemma grid_is_rectangular_witness :
  ∃ c header months,
    calculateMaxColumns (sampleHost 0 sampleCache) (year dailySettings) = Some c ∧
    renderGridRows (sampleHost 0 sampleCache) dailySettings ∅ (newDate 0 2024 5 1)
      = header :: months ∧
    length months = 12%nat ∧
    length (el_children header) = S (Z.to_nat c) ∧
    ∀ row, row ∈ months → length (monthCells row) = Z.to_nat c.
Proof.
  apply (grid_is_rectangular (sampleHost 0 sampleCache) dailySettings ∅
           (newDate 0 2024 5 1)); simpl; unfold msPerDay; lia.
Defined.

(** On a host whose local time is UTC plus one fixed offset of at most a
    day, the number of days the code gives a month is the length of the
    month in the Gregorian calendar, leap years included, for the years
    from -271820 to 275759 (a year from 0 to 99 is read as 1900 + year).
    The fixed offset is the time zone of [Host]: where a zone skips a
    calendar day, the host's [Date] for that day is the day after, and
    the count differs. *)
Theorem days_in_month_gregorian host year month :
  Z.abs (LocalTZA host) ≤ msPerDay → -271820 ≤ year ≤ 275759 → 0 ≤ month ≤ 11 →
  daysInMonth host year month
    = Some (GregorianMonthLength (MakeFullYear year) month) ∧
  (month = 1 →
   daysInMonth host year month
     = Some (if isLeapYear (MakeFullYear year) then 29 else 28)).
Proof.
  intros Htza Hy Hm.
  destruct (month_numbers host year month Htza Hy Hm) as (o & _ & _ & _ & Hn).
  split; [done|]. intros ->. by rewrite Hn.
Qed.

Lemma days_in_month_gregorian_witness :
  daysInMonth (sampleHost 0 noCache) 1900 1
    = Some (GregorianMonthLength (MakeFullYear 1900) 1) ∧
  (1 = 1 →
   daysInMonth (sampleHost 0 noCache) 1900 1
     = Some (if isLeapYear (MakeFullYear 1900) then 29 else 28)).
Proof.
  apply (days_in_month_gregorian (sampleHost 0 noCache) 1900 1); simpl;
    unfold msPerDay; lia.
Defined.

(** On a host whose local time is UTC plus one fixed offset of at most a
    day, and for the years from -271820 to 275759, the cell of a day sits
    in the column of its weekday: day [day] of a month is cell number
    offset + day - 1 of its row, that number is, modulo 7, the weekday of
    the day counted from Monday, the header cell above it carries the
    label of that weekday, and the column is shaded as a weekend exactly
    for a Saturday or a Sunday. The fixed offset is the time zone of
    [Host]: where a zone skips a calendar day, the host's [Date] for that
    day is the day after, one column further than its cell. *)
Theorem weekday_alignment host s events today year month day :
  Z.abs (LocalTZA host) ≤ msPerDay → -271820 ≤ year ≤ 275759 → 0 ≤ month ≤ 11 →
  1 ≤ day ≤ GregorianMonthLength (MakeFullYear year) month →
  ∃ c o w cell,
    calculateMaxColumns host year = Some c ∧
    monthOffset host year month = Some o ∧
    getDay (LocalTZA host) (newDate (LocalTZA host) year month day) = Some w ∧
    0 ≤ o + day - 1 < c ∧
    (o + day - 1) mod 7 = (w + 6) mod 7 ∧
    monthCells (renderMonth host s events today year month (Some c))
      !! Z.to_nat (o + day - 1) = Some cell ∧
    el_children cell
      = El "linear-calendar-day-number" [] (Some (pretty day)) []
        :: renderDayEvents
             (default [] (events !! dateKey host
                                       (newDate (LocalTZA host) year month day))) ∧
    el_children (renderWeekdayHeader (Some c) (weekdayLabels s))
      !! S (Z.to_nat (o + day - 1))
      = Some (headerCell (weekdayLabels s) (o + day - 1)) ∧
    el_text (headerCell (weekdayLabels s) (o + day - 1))
      = weekdayLabels s !! Z.to_nat ((w + 6) mod 7) ∧
    (isWeekend (Some (o + day - 1)) = true ↔ w = 6 ∨ w = 0).
Proof.
  intros Htza Hy Hm Hd.
  destruct (month_numbers host year month Htza Hy Hm) as (o & Ho & Hor & Hoeq & Hn).
  set (n := GregorianMonthLength (MakeFullYear year) month) in *.
  destruct (calculateMaxColumns_max host year) as (c & Hc & Hcr & Hall & _).
  assert (endColumn host year month = Some (o + n)) as He
    by (unfold endColumn; by rewrite Ho, Hn).
  pose proof (Hall month (o + n) Hm He) as Hle.
  assert (timeValue (newDate (LocalTZA host) year month day) ≠ None) as Hv
    by (by apply newDate_valid).
  pose proof (getDay_newDate _ _ _ _ Hv) as Hw.
  set (w := WeekDay (MakeDate (MakeDay (MakeFullYear year) month day) 0)) in *.
  assert ((o + day - 1) mod 7 = (w + 6) mod 7) as Hcol.
  { subst o w. unfold WeekDay. rewrite !Day_MakeDate.
    rewrite (MakeDay_date _ _ day). Z.div_mod_to_equations. lia. }
  pose proof (WeekDay_range (MakeDate (MakeDay (MakeFullYear year) month day) 0)) as Hwr.
  fold w in Hwr.
  eexists c, o, w, _. split_and!; try done; try lia.
  - rewrite monthCells_renderMonth, He, Ho, Hn. simpl Num.add.
    rewrite lookup_app_r by (rewrite length_fmap, length_columns by lia; lia).
    rewrite length_fmap, length_columns by lia.
    rewrite lookup_app_l by (rewrite length_fmap, length_columns by lia; lia).
    rewrite list_lookup_fmap. unfold columns.
    rewrite lookup_seqZ_lt by lia. simpl.
    replace (1 + Z.of_nat (Z.to_nat (o + day - 1) - Z.to_nat (o - 0))) with day
      by lia.
    done.
  - done.
  - rewrite children_renderWeekdayHeader. simpl.
    rewrite list_lookup_fmap. unfold columns.
    rewrite lookup_seqZ_lt by lia. simpl. do 2 f_equal. lia.
  - simpl. unfold JSString.at_index. rewrite Z.rem_mod_nonneg by lia.
    rewrite Hcol. destruct (Z.ltb_spec ((w + 6) mod 7) 0); [|done].
    Z.div_mod_to_equations. lia.
  - rewrite isWeekend_column by lia. rewrite bool_decide_eq_true, Hcol.
    Z.div_mod_to_equations. lia.
Qed.

Lemma weekday_alignment_witness :
  ∃ c o w cell,
    calculateMaxColumns (sampleHost 0 noCache) 2024 = Some c ∧
    monthOffset (sampleHost 0 noCache) 2024 5 = Some o ∧
    getDay 0 (newDate 0 2024 5 1) = Some w ∧
    0 ≤ o + 1 - 1 < c ∧
    (o + 1 - 1) mod 7 = (w + 6) mod 7 ∧
    monthCells (renderMonth (sampleHost 0 noCache) dailySettings ∅
                  (newDate 0 2024 5 1) 2024 5 (Some c))
      !! Z.to_nat (o + 1 - 1) = Some cell ∧
    el_children cell
      = El "linear-calendar-day-number" [] (Some (pretty 1)) []
        :: renderDayEvents
             (default [] ((∅ : gmap string (list CalendarEvent))
                          !! dateKey (sampleHost 0 noCache) (newDate 0 2024 5 1))) ∧
    el_children (renderWeekdayHeader (Some c) (weekdayLabels dailySettings))
      !! S (Z.to_nat (o + 1 - 1))
      = Some (headerCell (weekdayLabels dailySettings) (o + 1 - 1)) ∧
    el_text (headerCell (weekdayLabels dailySettings) (o + 1 - 1))
      = weekdayLabels dailySettings !! Z.to_nat ((w + 6) mod 7) ∧
    (isWeekend (Some (o + 1 - 1)) = true ↔ w = 6 ∨ w = 0).
Proof.
  apply (weekday_alignment (sampleHost 0 noCache) dailySettings ∅
           (newDate 0 2024 5 1) 2024 5 1); simpl; unfold msPerDay; lia.
Defined.

(** The grid is 36 or 37 columns wide, for every year from -271820 to
    275759: some month of 31 days starts on a Saturday or a Sunday, or one
    of 30 days on a Sunday. *)
Theorem maxColumns_36_or_37 host year :
  Z.abs (LocalTZA host) ≤ msPerDay → -271820 ≤ year ≤ 275759 →
  calculateMaxColumns host year = Some 36 ∨
  calculateMaxColumns host year = Some 37.
Proof.
  intros Htza Hy.
  destruct (calculateMaxColumns_max host year) as (c & Hc & Hcr & Hall & _).
  assert (∀ m, 0 ≤ m ≤ 11 →
            ((DayFromYear (MakeFullYear year)
              + DaysBeforeMonth (MakeFullYear year) m + 4) mod 7 + 6) mod 7
            + GregorianMonthLength (MakeFullYear year) m ≤ c) as Hm.
  { intros m Hm.
    destruct (month_numbers host year m Htza Hy Hm) as (o & Ho & _ & Hoeq & Hn).
    apply (Hall m); [done|]. unfold endColumn. rewrite Ho, Hn. simpl.
    rewrite Hoeq. unfold WeekDay. rewrite Day_MakeDate.
    pose proof (GregorianMonthLength_range (MakeFullYear year) m).
    destruct (MakeDay_in_year (MakeFullYear year) m 1) as [-> _]; [done|lia|].
    replace (DayFromYear (MakeFullYear year)
             + DaysBeforeMonth (MakeFullYear year) m + 1 - 1 + 4)
      with (DayFromYear (MakeFullYear year)
            + DaysBeforeMonth (MakeFullYear year) m + 4) by lia.
    done. }
  assert (36 ≤ c); [|rewrite Hc; assert (c = 36 ∨ c = 37) as [->| ->] by lia; auto].
  pose proof (Hm 0 ltac:(lia)) as H0. pose proof (Hm 2 ltac:(lia)) as H2.
  pose proof (Hm 4 ltac:(lia)) as H4. pose proof (Hm 6 ltac:(lia)) as H6.
  pose proof (Hm 7 ltac:(lia)) as H7. pose proof (Hm 9 ltac:(lia)) as H9.
  pose proof (Hm 11 ltac:(lia)) as H11. pose proof (Hm 3 ltac:(lia)) as H3.
  pose proof (Hm 5 ltac:(lia)) as H5.
  clear Hm Hall.
  unfold DaysBeforeMonth, GregorianMonthLength in *.
  destruct (DaysInYear_cases (MakeFullYear year)) as [Hl|Hl]; rewrite Hl in *;
    simpl in *; Z.div_mod_to_equations; lia.
Qed.

Lemma maxColumns_36_or_37_witness :
  calculateMaxColumns (sampleHost 0 noCache) 2025 = Some 36 ∨
  calculateMaxColumns (sampleHost 0 noCache) 2025 = Some 37.
Proof.
  apply (maxColumns_36_or_37 (sampleHost 0 noCache) 2025); simpl;
    unfold msPerDay; lia.
Defined.

End GridFacts.

(** ** The date key separates the days *)

Module KeyMoreFacts.
Import ES ESFacts JSDate DateFacts LinearCalendar KeyFacts SampleHost.

(** The date of a time is a day of its month. *)
Lemma DateFromTime_in_month t :
  1 ≤ DateFromTime t ≤ GregorianMonthLength (YearFromTime t) (MonthFromTime t).
Proof.
  pose proof (DayWithinYear_range t) as Hd.
  unfold GregorianMonthLength. rewrite isLeapYear_DaysInYear.
  unfold DateFromTime, MonthFromTime, InLeapYear in *.
  destruct (DaysInYear_cases (YearFromTime t)) as [Hy|Hy]; rewrite Hy in *; simpl;
    case_tests; simpl; lia.
Qed.

Lemma append_inj_length (a b u v : string) :
  String.length u = String.length v → a +:+ u = b +:+ v → a = b ∧ u = v.
Proof.
  intros Hlen. revert b. induction a as [|x a IH]; intros [|y b] Heq.
  - done.
  - apply (f_equal String.length) in Heq. rewrite !length_append in Heq.
    simpl in Heq. lia.
  - apply (f_equal String.length) in Heq. rewrite !length_append in Heq.
    simpl in Heq. lia.
  - injection Heq as -> Heq. destruct (IH b Heq) as [-> ->]. done.
Qed.

Lemma twoDigits_inj a b :
  0 ≤ a ≤ 99 → 0 ≤ b ≤ 99 → twoDigits a = twoDigits b → a = b.
Proof.
  intros Ha Hb. unfold twoDigits. intros [= H1 H2].
  apply pretty_N_char_inj in H1; [|Z.div_mod_to_equations; lia..].
  apply pretty_N_char_inj in H2; [|Z.div_mod_to_equations; lia..].
  Z.div_mod_to_equations. lia.
Qed.

(** Two valid dates have the same key exactly when they are the same
    calendar day: the same year, month and day of the month. *)
Theorem dateKey_injective host d1 d2 :
  timeValue d1 ≠ None → timeValue d2 ≠ None →
  (dateKey host d1 = dateKey host d2 ↔
   getFullYear (LocalTZA host) d1 = getFullYear (LocalTZA host) d2 ∧
   getMonth (LocalTZA host) d1 = getMonth (LocalTZA host) d2 ∧
   getDate (LocalTZA host) d1 = getDate (LocalTZA host) d2).
Proof.
  intros H1 H2.
  destruct (dateKey_parts host d1 H1) as (y1 & m1 & n1 & Hy1 & Hm1 & Hn1 & ? & ? & K1).
  destruct (dateKey_parts host d2 H2) as (y2 & m2 & n2 & Hy2 & Hm2 & Hn2 & ? & ? & K2).
  rewrite K1, K2, Hy1, Hy2, Hm1, Hm2, Hn1, Hn2. split.
  - intros Heq.
    apply append_inj_length in Heq as [Hy Heq]; [|done].
    apply (inj pretty) in Hy.
    assert (twoDigits (m1 + 1) = twoDigits (m2 + 1) ∧ twoDigits n1 = twoDigits n2)
      as [Hm Hn].
    { unfold twoDigits in *. cbv [String.append] in Heq.
      injection Heq as -> -> -> ->. done. }
    apply twoDigits_inj in Hm; [|lia..]. apply twoDigits_inj in Hn; [|lia..].
    split_and!; f_equal; lia.
  - intros ([= ->] & [= ->] & [= ->]). done.
Qed.

Lemma dateKey_injective_witness :
  dateKey (sampleHost 0 noCache) (newDate 0 2024 0 11)
    = dateKey (sampleHost 0 noCache) (newDate 0 2024 10 1) ↔
  getFullYear 0 (newDate 0 2024 0 11) = getFullYear 0 (newDate 0 2024 10 1) ∧
  getMonth 0 (newDate 0 2024 0 11) = getMonth 0 (newDate 0 2024 10 1) ∧
  getDate 0 (newDate 0 2024 0 11) = getDate 0 (newDate 0 2024 10 1).
Proof.
  apply (dateKey_injective (sampleHost 0 noCache)); by vm_compute.
Defined.

End KeyMoreFacts.

(** ** The index and the cells *)

Module IndexMoreFacts.
Import ES ESFacts JSDate DateFacts LinearCalendar KeyFacts KeyMoreFacts
  ExtractorFacts IndexFacts SampleHost.

Section Index.
Variable host : Host.
Variable s : LinearCalendarSettings.

Lemma elem_of_allEvents files e :
  e ∈ allEvents host s files ↔
  ∃ f d, f ∈ files ∧ d ∈ extractDatesFromFile host s f ∧ e = eventOf f d.
Proof.
  unfold allEvents. rewrite list_elem_of_bind. split.
  - intros (f & (d & -> & Hd)%list_elem_of_fmap & Hf). by exists f, d.
  - intros (f & d & Hf & Hd & ->). exists f. split; [|done].
    apply list_elem_of_fmap. by exists d.
Qed.

Lemma elem_of_index files key e :
  (∃ l, loadEvents host s files !! key = Some l ∧ e ∈ l) ↔
  e ∈ allEvents host s files ∧ dateKey host (startDate e) = key.
Proof.
  rewrite loadEvents_grouped. unfold grouped. split.
  - intros (l & Hl & He).
    destruct (eventsWithKey host key (allEvents host s files)) as [|x l'] eqn:Hk;
      [done|].
    injection Hl as <-. rewrite <-Hk in He. unfold eventsWithKey in He.
    apply list_elem_of_filter in He. tauto.
  - intros [He Hk].
    assert (e ∈ eventsWithKey host key (allEvents host s files)) as Hin
      by (by apply list_elem_of_filter).
    destruct (eventsWithKey host key (allEvents host s files)) as [|x l'] eqn:Hl.
    + by apply elem_of_nil in Hin.
    + by eexists.
Qed.

(** The index holds the events of the vault and nothing else: an event
    is in the sequence of a key exactly when it is the event of a note of
    the vault and of a date the extractor returns for it, with that key;
    and a sequence keeps the order of the vault. *)
Theorem index_exact files key e :
  ((∃ l, loadEvents host s files !! key = Some l ∧ e ∈ l) ↔
   ∃ f d, f ∈ files ∧ d ∈ extractDatesFromFile host s f ∧
          e = eventOf f d ∧ dateKey host d = key) ∧
  (∀ l, loadEvents host s files !! key = Some l →
        l `sublist_of` allEvents host s files).
Proof.
  split.
  - rewrite elem_of_index, elem_of_allEvents. split.
    + intros ((f & d & Hf & Hd & ->) & Hk). by exists f, d.
    + intros (f & d & Hf & Hd & -> & Hk). split; [by exists f, d|done].
  - intros l [-> _]%loadEvents_lookup. apply sublist_filter.
Qed.

(** A note of the vault is on the calendar, under some key, exactly when
    creation dates are shown or its filename or frontmatter gives a date. *)
Theorem note_on_calendar files f :
  f ∈ files →
  ((∃ key l e, loadEvents host s files !! key = Some l ∧ e ∈ l ∧ file e = f) ↔
   showFileCreationDates s = true ∨ sourceDates host s f ≠ []).
Proof.
  intros Hf.
  assert (extractDatesFromFile host s f ≠ [] ↔
          showFileCreationDates s = true ∨ sourceDates host s f ≠ []) as <-.
  { rewrite extractDatesFromFile_sources.
    destruct (sourceDates host s f) as [|d l]; simpl.
    - destruct (showFileCreationDates s); simpl; split; try done.
      + by left.
      + by intros [?|?].
    - split; [by right|done]. }
  split.
  - intros (key & l & e & Hl & He & Hfile).
    assert (∃ l, loadEvents host s files !! key = Some l ∧ e ∈ l) as Hin by eauto.
    apply elem_of_index in Hin as [(f' & d & _ & Hd & ->)%elem_of_allEvents _].
    simpl in Hfile. subst f'. intros Hnil. rewrite Hnil in Hd.
    by apply elem_of_nil in Hd.
  - intros Hne. destruct (extractDatesFromFile host s f) as [|d l] eqn:Hex; [done|].
    assert (d ∈ extractDatesFromFile host s f) as Hd by (rewrite Hex; left).
    destruct (elem_of_index files (dateKey host d) (eventOf f d)) as [_ Hk].
    destruct Hk as (l' & Hl' & He).
    { split; [|done]. apply elem_of_allEvents. by exists f, d. }
    by exists (dateKey host d), l', (eventOf f d).
Qed.

Lemma dateKey_of_fields d y m n :
  getFullYear (LocalTZA host) d = Some y → getMonth (LocalTZA host) d = Some m →
  getDate (LocalTZA host) d = Some n →
  dateKey host d = pretty y +:+ "-" +:+ twoDigits (m + 1) +:+ "-" +:+ twoDigits n.
Proof.
  intros Hy Hm Hn.
  assert (timeValue d ≠ None) as Hv.
  { unfold getFullYear in Hy. by destruct (timeValue d). }
  destruct (dateKey_parts host d Hv) as (y' & m' & n' & Hy' & Hm' & Hn' & _ & _ & ->).
  congruence.
Qed.

Lemma fields_in_month d y m n :
  getFullYear (LocalTZA host) d = Some y → getMonth (LocalTZA host) d = Some m →
  getDate (LocalTZA host) d = Some n →
  0 ≤ m ≤ 11 ∧ 1 ≤ n ≤ GregorianMonthLength y m.
Proof.
  unfold getFullYear, getMonth, getDate. destruct (timeValue d) as [t|]; [|done].
  simpl. intros [= <-] [= <-] [= <-].
  split; [apply MonthFromTime_range|apply DateFromTime_in_month].
Qed.

(** An event is shown in the cell of its day: when the extractor returns
    for a note a date that falls on day [day] of month [month] of the year
    the grid shows, the cell of that day looks up the sequence that holds
    the event of the note, and draws it. *)
Theorem event_in_day_cell files today f d year month day offset isCurrentMonth :
  f ∈ files → d ∈ extractDatesFromFile host s f →
  getFullYear (LocalTZA host) d = Some (MakeFullYear year) →
  getMonth (LocalTZA host) d = Some month →
  getDate (LocalTZA host) d = Some day →
  timeValue (newDate (LocalTZA host) year month day) ≠ None →
  ∃ dayEvents,
    loadEvents host s files !! dateKey host d = Some dayEvents ∧
    eventOf f d ∈ dayEvents ∧
    el_children (renderDayCell host s (loadEvents host s files) today year month
                   offset isCurrentMonth day)
      = El "linear-calendar-day-number" [] (Some (pretty day)) []
        :: renderDayEvents dayEvents ∧
    renderDayEvents dayEvents ≠ [].
Proof.
  intros Hf Hd Hy Hm Hn Hv.
  destruct (fields_in_month d _ _ _ Hy Hm Hn) as [Hmr Hnr].
  destruct (getters_newDate (LocalTZA host) year month day Hmr Hnr Hv)
    as (Hy' & Hm' & Hn').
  assert (dateKey host (newDate (LocalTZA host) year month day) = dateKey host d)
    as Hkey.
  { rewrite (dateKey_of_fields d _ _ _ Hy Hm Hn).
    by apply dateKey_of_fields. }
  destruct (elem_of_index files (dateKey host d) (eventOf f d)) as [_ Hk].
  destruct Hk as (l & Hl & He).
  { split; [|done]. apply elem_of_allEvents. by exists f, d. }
  exists l. split_and!; try done.
  - unfold renderDayCell. simpl. by rewrite Hkey, Hl.
  - unfold renderDayEvents. destruct l as [|x l]; [by apply elem_of_nil in He|].
    done.
Qed.

End Index.

Lemma note_on_calendar_witness :
  (∃ key l e,
     loadEvents (sampleHost 0 sampleCache) dailySettings
       [dailyNote; taskNote; plainNote] !! key = Some l ∧
     e ∈ l ∧ file e = plainNote) ↔
  showFileCreationDates dailySettings = true ∨
  sourceDates (sampleHost 0 sampleCache) dailySettings plainNote ≠ [].
Proof.
  apply (note_on_calendar (sampleHost 0 sampleCache) dailySettings
           [dailyNote; taskNote; plainNote] plainNote).
  apply list_elem_of_In. simpl. tauto.
Defined.

Lemma event_in_day_cell_witness :
  ∃ dayEvents,
    loadEvents (sampleHost 0 sampleCache) dailySettings
      [dailyNote; taskNote; plainNote]
      !! dateKey (sampleHost 0 sampleCache) (newDate 0 2024 2 15) = Some dayEvents ∧
    eventOf dailyNote (newDate 0 2024 2 15) ∈ dayEvents ∧
    el_children
      (renderDayCell (sampleHost 0 sampleCache) dailySettings
         (loadEvents (sampleHost 0 sampleCache) dailySettings
            [dailyNote; taskNote; plainNote])
         (newDate 0 2024 5 1) 2024 2 (Some 4) false 15)
      = El "linear-calendar-day-number" [] (Some (pretty 15)) []
        :: renderDayEvents dayEvents ∧
    renderDayEvents dayEvents ≠ [].
Proof.
  apply (event_in_day_cell (sampleHost 0 sampleCache) dailySettings
           [dailyNote; taskNote; plainNote] (newDate 0 2024 5 1) dailyNote
           (newDate 0 2024 2 15) 2024 2 15 (Some 4) false); try (by vm_compute).
  - apply list_elem_of_In. simpl. tauto.
  - apply list_elem_of_In. vm_compute. tauto.
Defined.

End IndexMoreFacts.

(** ** The list inputs *)

Module LabelFacts.
Import LinearCalendar SettingsFacts.

Lemma chars_append a b : String.list_ascii_of_string (a +:+ b) = String.list_ascii_of_string a ++ String.list_ascii_of_string b.
Proof. induction a as [|x a IH]; [done|]. rewrite append_cons. simpl. by rewrite IH. Qed.

Lemma elem_of_chars_rev_app c a b :
  c ∈ String.list_ascii_of_string (String.rev_app a b) ↔ c ∈ String.list_ascii_of_string a ∨ c ∈ String.list_ascii_of_string b.
Proof.
  revert b. induction a as [|x a IH]; intros b; simpl.
  - rewrite elem_of_nil. tauto.
  - rewrite IH. simpl. rewrite !elem_of_cons. tauto.
Qed.

Lemma elem_of_chars_rev c a : c ∈ String.list_ascii_of_string (String.rev a) ↔ c ∈ String.list_ascii_of_string a.
Proof.
  unfold String.rev. rewrite elem_of_chars_rev_app. simpl.
  rewrite elem_of_nil. tauto.
Qed.

Lemma elem_of_chars_trimStart c a : c ∈ String.list_ascii_of_string (JSString.trimStart a) → c ∈ String.list_ascii_of_string a.
Proof.
  induction a as [|x a IH]; simpl; [done|].
  destruct (JSString.isWhiteSpace x); [|done]. intros H. right. by apply IH.
Qed.

Lemma elem_of_chars_trim c a : c ∈ String.list_ascii_of_string (JSString.trim a) → c ∈ String.list_ascii_of_string a.
Proof.
  unfold JSString.trim, JSString.trimEnd. rewrite elem_of_chars_rev.
  intros H%elem_of_chars_trimStart. rewrite elem_of_chars_rev in H.
  by apply elem_of_chars_trimStart.
Qed.

Lemma split_go_pieces sep cur str piece :
  sep ∉ String.list_ascii_of_string cur → piece ∈ JSString.split_go sep cur str → sep ∉ String.list_ascii_of_string piece.
Proof.
  revert cur. induction str as [|x r IH]; intros cur Hcur; simpl.
  - intros ->%list_elem_of_singleton. by rewrite elem_of_chars_rev.
  - case_decide as Hx.
    + intros [->|Hin]%elem_of_cons; [by rewrite elem_of_chars_rev|].
      apply (IH ""); [|done]. simpl. apply not_elem_of_nil.
    + apply IH. simpl. rewrite not_elem_of_cons. split; [congruence|done].
Qed.

Lemma trim_idempotent str : JSString.trim (JSString.trim str) = JSString.trim str.
Proof.
  destruct (trim_trimmed str) as [Hs He].
  unfold JSString.trim at 1. by rewrite Hs, He.
Qed.

Lemma parseLabels_clean value label : label ∈ parseLabels value → cleanLabel label.
Proof.
  intros (Hne & piece & -> & Hin)%elem_of_parseLabels. split_and!.
  - done.
  - apply trim_idempotent.
  - intros H%elem_of_chars_trim. revert H.
    apply (split_go_pieces "," "" value); [|done]. apply not_elem_of_nil.
Qed.

Lemma split_go_nosep sep cur a b :
  sep ∉ String.list_ascii_of_string a →
  JSString.split_go sep cur (a +:+ b) = JSString.split_go sep (String.rev_app a cur) b.
Proof.
  revert cur. induction a as [|x a IH]; intros cur Ha; [done|].
  simpl in Ha. apply not_elem_of_cons in Ha as [Hx Ha].
  rewrite append_cons. simpl. rewrite decide_False by congruence.
  by rewrite IH.
Qed.

Lemma split_nosep sep a : sep ∉ String.list_ascii_of_string a → JSString.split sep a = [a].
Proof.
  intros Ha. unfold JSString.split.
  rewrite <-(append_empty_r a) at 1. rewrite split_go_nosep by done. simpl.
  by rewrite <-(rev_involutive a) at 2.
Qed.

Lemma split_sep sep a b :
  sep ∉ String.list_ascii_of_string a →
  JSString.split sep (a +:+ String sep b) = a :: JSString.split sep b.
Proof.
  intros Ha. unfold JSString.split. rewrite split_go_nosep by done. simpl.
  rewrite decide_True by done. f_equal. apply (rev_involutive a).
Qed.

Lemma split_displayList (pre : string) label labels :
  ("," : ascii) ∉ String.list_ascii_of_string pre → Forall cleanLabel (label :: labels) →
  JSString.split "," (pre +:+ displayList (label :: labels)) =
  (pre +:+ label) :: ((λ l, " " +:+ l) <$> labels).
Proof.
  revert pre label. induction labels as [|l2 labels IH]; intros pre label Hpre Hall.
  - apply Forall_cons in Hall as [(_ & _ & Hc) _]. simpl.
    apply split_nosep. rewrite chars_append, not_elem_of_app. done.
  - apply Forall_cons in Hall as [(_ & _ & Hc) Hall].
    change (displayList (label :: l2 :: labels))
      with (label +:+ String "," (" " +:+ displayList (l2 :: labels))).
    rewrite <-append_assoc, split_sep
      by (rewrite chars_append, not_elem_of_app; done).
    rewrite fmap_cons. f_equal. apply IH; [|done].
    simpl. rewrite not_elem_of_cons. split; [done|apply not_elem_of_nil].
Qed.

Lemma trim_space label : JSString.trim (" " +:+ label) = JSString.trim label.
Proof. done. Qed.

Lemma parseLabels_displayList labels :
  Forall cleanLabel labels → parseLabels (displayList labels) = labels.
Proof.
  intros Hall. destruct labels as [|label labels]; [done|].
  unfold parseLabels.
  pose proof (split_displayList "" label labels) as Hs.
  change ("" +:+ displayList (label :: labels))
    with (displayList (label :: labels)) in Hs.
  change ("" +:+ label) with label in Hs.
  rewrite Hs; [|apply not_elem_of_nil|done].
  rewrite fmap_cons, <-list_fmap_compose.
  assert (∀ ls, Forall cleanLabel ls →
            filter (λ l, (0 < String.length l)%nat)
                   ((JSString.trim ∘ (λ l, " " +:+ l)) <$> ls) = ls) as Hrest.
  { intros ls Hls. induction Hls as [|l ls (Hne & Ht & _) _ IH]; [done|].
    rewrite fmap_cons. simpl. rewrite trim_space, Ht.
    rewrite filter_cons_True by (destruct l; simpl; [done|lia]).
    by rewrite IH. }
  apply Forall_cons in Hall as [(Hne & Ht & _) Hall].
  rewrite Ht, filter_cons_True by (destruct label; simpl; [done|lia]).
  by rewrite Hrest.
Qed.

(** What a list input stores can be shown and read back: every stored
    entry is not empty, has no white space at either end and no comma, and
    parsing the text the tab shows for the stored list gives the list
    again. *)
Theorem labels_round_trip value :
  (∀ label, label ∈ parseLabels value →
     label ≠ "" ∧ JSString.trimStart label = label ∧
     JSString.trimEnd label = label ∧ ("," : ascii) ∉ String.list_ascii_of_string label) ∧
  parseLabels (displayList (parseLabels value)) = parseLabels value.
Proof.
  split.
  - intros label Hin. pose proof (parseLabels_clean _ _ Hin) as (Hne & Ht & Hc).
    destruct (trim_trimmed label) as [Hs He]. rewrite Ht in Hs, He. done.
  - apply parseLabels_displayList, Forall_forall. apply parseLabels_clean.
Qed.

End LabelFacts.

(** ** Reading numbers *)

Module InputFacts.
Import LinearCalendar ScaleFacts SettingsFacts.

Lemma is_nat_pretty_N_char (x : N) :
  (x < 10)%N → Ascii.is_nat (pretty_N_char x) = Some (N.to_nat x).
Proof.
  intros Hx.
  assert (x = 0 ∨ x = 1 ∨ x = 2 ∨ x = 3 ∨ x = 4 ∨ x = 5 ∨ x = 6 ∨ x = 7 ∨
          x = 8 ∨ x = 9)%N as H by lia.
  destruct H as [->|[->|[->|[->|[->|[->|[->|[->|[->| ->]]]]]]]]]; done.
Qed.

(** Reading back the digits [pretty] writes in front of a string. *)
Lemma digitPrefix_pretty_N_go (x : N) :
  ∃ p, ∀ acc str,
    digitPrefix (pretty_N_go x str) (Some acc) =
    digitPrefix str (Some (acc * p + Z.of_N x)).
Proof.
  induction (N.lt_wf_0 x) as [x _ IH].
  assert (x = 0 ∨ 0 < x)%N as [->|Hx] by lia.
  - exists 1. intros acc str. rewrite pretty_N_go_0. do 2 f_equal. lia.
  - destruct (IH (x `div` 10)%N) as (p & Hp); [by apply N.div_lt|].
    exists (10 * p). intros acc str.
    rewrite pretty_N_go_step, Hp by done. simpl.
    rewrite is_nat_pretty_N_char by (by apply N.mod_lt). simpl.
    do 2 f_equal.
    pose proof (N.div_mod x 10 ltac:(done)) as Hdiv.
    replace (acc * (10 * p)) with (10 * (acc * p)) by ring.
    rewrite N_nat_Z. generalize dependent (x `div` 10)%N.
    generalize (x `mod` 10)%N (acc * p). intros. clear -Hdiv. rewrite Hdiv. lia.
Qed.

Lemma pretty_N_go_head (x : N) str :
  (0 < x)%N → ∃ c r d, pretty_N_go x str = String c r ∧ Ascii.is_nat c = Some d.
Proof.
  revert str. induction (N.lt_wf_0 x) as [x _ IH]. intros str Hx.
  rewrite pretty_N_go_step by done.
  destruct (N.eq_0_gt_0_cases (x `div` 10)) as [->|Hq].
  - rewrite pretty_N_go_0. eexists _, _, _. split; [done|].
    apply is_nat_pretty_N_char. by apply N.mod_lt.
  - apply IH; [by apply N.div_lt|done].
Qed.

Lemma digitPrefix_start c r d :
  Ascii.is_nat c = Some d →
  digitPrefix (String c r) None = digitPrefix (String c r) (Some 0) ∧
  JSString.trimStart (String c r) = String c r ∧
  c ≠ "-"%char ∧ c ≠ "+"%char.
Proof.
  intros Hd. simpl. rewrite Hd. split; [done|].
  assert (JSString.isWhiteSpace c = false ∧ c ≠ "-"%char ∧ c ≠ "+"%char)
    as (-> & ? & ?); [|done].
  destruct c as [[] [] [] [] [] [] [] []]; by (done || discriminate Hd).
Qed.

Lemma digitPrefix_stop str acc :
  (∀ c r, str = String c r → Ascii.is_nat c = None) →
  digitPrefix str acc = acc.
Proof. intros H. destruct str as [|c r]; [done|]. simpl. by rewrite (H c r). Qed.

Lemma parse_positive (x : positive) rest :
  (∀ c r, rest = String c r → Ascii.is_nat c = None) →
  digitPrefix (pretty_N_go (N.pos x) rest) None = Some (Z.pos x) ∧
  ∃ c r d, pretty_N_go (N.pos x) rest = String c r ∧ Ascii.is_nat c = Some d.
Proof.
  intros Hrest.
  destruct (pretty_N_go_head (N.pos x) rest) as (c & r & d & Heq & Hd); [lia|].
  split; [|by eauto].
  destruct (digitPrefix_start c r d Hd) as (H0 & _).
  rewrite Heq, H0, <-Heq.
  destruct (digitPrefix_pretty_N_go (N.pos x)) as (p & Hp).
  by rewrite Hp, digitPrefix_stop by done.
Qed.

Lemma pretty_N_go_append x a b : pretty_N_go x a +:+ b = pretty_N_go x (a +:+ b).
Proof.
  revert a. induction (N.lt_wf_0 x) as [x _ IH]. intros a.
  assert (x = 0 ∨ 0 < x)%N as [->|Hx] by lia.
  - by rewrite !pretty_N_go_0.
  - rewrite (pretty_N_go_step x a), (pretty_N_go_step x (a +:+ b)) by done.
    rewrite IH by (by apply N.div_lt). by rewrite append_cons.
Qed.

(** [parseInt] reads back what [String] writes, whatever follows the
    digits. *)
Lemma parseInt10_pretty (n : Z) rest :
  (∀ c r, rest = String c r → Ascii.is_nat c = None) →
  parseInt10 (pretty n +:+ rest) = Some n.
Proof.
  intros Hrest. unfold parseInt10. destruct n as [|x|x].
  - change (pretty 0 +:+ rest) with (String "0" rest). simpl.
    by rewrite digitPrefix_stop.
  - assert (pretty (Z.pos x) +:+ rest = pretty_N_go (N.pos x) rest) as ->.
    { unfold pretty, pretty_Z, pretty, pretty_positive, pretty, pretty_N.
      rewrite decide_False by done. apply pretty_N_go_append. }
    destruct (parse_positive x rest Hrest) as (Hv & c & r & d & Heq & Hd).
    destruct (digitPrefix_start c r d Hd) as (_ & Ht & _ & _).
    rewrite Heq in *. rewrite Ht. clear Ht Heq.
    destruct c as [[] [] [] [] [] [] [] []]; try discriminate Hd; exact Hv.
  - assert (pretty (Z.neg x) +:+ rest = String "-" (pretty_N_go (N.pos x) rest))
      as ->.
    { unfold pretty, pretty_Z, pretty, pretty_positive, pretty, pretty_N.
      rewrite decide_False by done.
      change (("-" +:+ pretty_N_go (N.pos x) "") +:+ rest)
        with (String "-" (pretty_N_go (N.pos x) "" +:+ rest)).
      by rewrite pretty_N_go_append. }
    simpl. destruct (parse_positive x rest Hrest) as (-> & _). done.
Qed.

End InputFacts.

(** ** The controls *)

Module ControlFacts.
Import LinearCalendar ScaleFacts SettingsFacts InputFacts.
Local Open Scope Q_scope.

Lemma maxScale_inject axis : maxScale axis = inject_Z (maxPercent axis / 100).
Proof. by destruct axis. Qed.

Lemma getScale_adjustScale axis delta p :
  getScale axis (settings (adjustScale axis delta p)) =
  JSMath.round
    (JSMath.max (1 # 2) (JSMath.min (maxScale axis)
                           (getScale axis (settings p) + delta)) * 10) / 10.
Proof. by destruct axis. Qed.

Lemma getScale_adjustScale_other axis axis' delta p :
  axis ≠ axis' →
  getScale axis' (settings (adjustScale axis delta p)) = getScale axis' (settings p).
Proof. by destruct axis, axis'. Qed.

Lemma getDefaultScale_adjustScale axis axis' delta p :
  getDefaultScale axis' (settings (adjustScale axis delta p))
  = getDefaultScale axis' (settings p).
Proof. by destruct axis, axis'. Qed.

(** Snapping keeps a value inside a range whose ends are multiples of one
    tenth. *)
Lemma snap_range (hi : Z) c :
  1 # 2 <= c <= inject_Z hi →
  1 # 2 <= JSMath.round (c * 10) / 10 <= inject_Z hi.
Proof.
  intros Hc. destruct (snap_spec c) as (k & -> & _ & Hnear).
  assert (5 ≤ k ≤ 10 * hi)%Z as Hk.
  { assert (inject_Z 4 < inject_Z k ∧ inject_Z k < inject_Z (10 * hi + 1)) as [H4 H51].
    { rewrite inject_Z_plus, inject_Z_mult.
      change (inject_Z 4) with 4. change (inject_Z 10) with 10.
      change (inject_Z 1) with 1.
      generalize dependent (inject_Z k). generalize dependent (inject_Z hi).
      intros h Hc y Hy.
      unfold Qdiv in Hy. change (/ 10) with (1 # 10) in Hy. split; lra. }
    rewrite <-Zlt_Qlt in H4, H51. lia. }
  assert (inject_Z 5 <= inject_Z k ∧ inject_Z k <= inject_Z (10 * hi)) as [H5 H50]
    by (rewrite <-!Zle_Qle; lia).
  rewrite inject_Z_mult in H50.
  change (inject_Z 5) with 5 in H5. change (inject_Z 10) with 10 in H50.
  generalize dependent (inject_Z k). generalize dependent (inject_Z hi).
  intros h _ y _ H5 H50.
  unfold Qdiv. change (/ 10) with (1 # 10). lra.
Qed.

Lemma adjustScale_range axis delta p :
  1 # 2 <= getScale axis (settings (adjustScale axis delta p)) <= maxScale axis.
Proof.
  rewrite getScale_adjustScale, maxScale_inject.
  apply snap_range. rewrite <-maxScale_inject.
  apply clamp_spec. destruct axis; simpl; lra.
Qed.

Lemma percent_range axis num :
  (50 ≤ num ≤ maxPercent axis)%Z → 1 # 2 <= inject_Z num / 100 <= maxScale axis.
Proof.
  intros Hn.
  assert (inject_Z 50 <= inject_Z num ∧ inject_Z num <= inject_Z (maxPercent axis))
    as [Hlo Hhi] by (rewrite <-!Zle_Qle; lia).
  change (inject_Z 50) with 50 in Hlo.
  unfold Qdiv. change (/ 100) with (1 # 100).
  destruct axis; simpl in *;
    [change (inject_Z 500) with 500 in Hhi..|change (inject_Z 300) with 300 in Hhi];
    generalize dependent (inject_Z num); intros; lra.
Qed.

Lemma displayPercent_percent num : displayPercent (inject_Z num / 100) = pretty num.
Proof.
  unfold displayPercent. f_equal.
  assert (inject_Z num / 100 * 100 + (1 # 2) == inject_Z num + (1 # 2)) as ->
    by field.
  apply Qfloor_half.
Qed.

(** A default size input accepts a text exactly when [parseInt] reads from
    it a number from 50 to 500 (300 for the font): the default becomes that
    number of percent, inside the range of the scale, it is saved, and the
    tab then shows the number. Any other text changes nothing. [parseInt]
    reads the digits at the start of the text and ignores the rest. *)
Theorem default_scale_input axis value p :
  (∀ num, parseInt10 value = Some num → (50 ≤ num ≤ maxPercent axis)%Z →
     getDefaultScale axis (settings (onChangeDefaultScale axis value p))
       = inject_Z num / 100 ∧
     1 # 2 <= getDefaultScale axis (settings (onChangeDefaultScale axis value p))
       <= maxScale axis ∧
     savedData (onChangeDefaultScale axis value p)
       = Some (settings (onChangeDefaultScale axis value p)) ∧
     displayPercent
       (getDefaultScale axis (settings (onChangeDefaultScale axis value p)))
       = pretty num) ∧
  (parseInt10 value = None → onChangeDefaultScale axis value p = p) ∧
  (∀ num, parseInt10 value = Some num → ¬ (50 ≤ num ≤ maxPercent axis)%Z →
     onChangeDefaultScale axis value p = p) ∧
  (∀ (n : Z) rest,
     (∀ c r, rest = String c r → Ascii.is_nat c = None) →
     value = pretty n +:+ rest → parseInt10 value = Some n).
Proof.
  unfold onChangeDefaultScale. split_and!.
  - intros num -> Hn.
    destruct (Z.leb_spec 50 num); [|lia].
    destruct (Z.leb_spec num (maxPercent axis)); [|lia]. simpl.
    assert (getDefaultScale axis (setDefaultScale axis (inject_Z num / 100) (settings p))
            = inject_Z num / 100) as -> by (by destruct axis).
    split; [done|]. split; [apply percent_range; lia|].
    split; [done|apply displayPercent_percent].
  - by intros ->.
  - intros num -> Hn.
    destruct (Z.leb_spec 50 num); [|done].
    destruct (Z.leb_spec num (maxPercent axis)); [lia|done].
  - intros n rest Hrest ->. by apply parseInt10_pretty.
Qed.

(** A step and the opposite step cancel: from a scale that is a multiple
    of 0.1, a step of a multiple of 0.1 that stays inside the range of the
    axis moves the scale by that much, and the opposite step brings the
    scale back. *)
Theorem scale_step_round_trip axis (k j : Z) delta p :
  getScale axis (settings p) == inject_Z k / 10 → delta == inject_Z j / 10 →
  (5 ≤ k ≤ maxPercent axis / 10)%Z → (5 ≤ k + j ≤ maxPercent axis / 10)%Z →
  getScale axis (settings (adjustScale axis delta p)) == inject_Z (k + j) / 10 ∧
  getScale axis (settings (adjustScale axis (- delta) (adjustScale axis delta p)))
    == getScale axis (settings p).
Proof.
  intros Hs Hd Hk Hkj.
  assert (∀ n : Z, (5 ≤ n ≤ maxPercent axis / 10)%Z →
            1 # 2 <= inject_Z n / 10 <= maxScale axis) as Hin.
  { intros n Hn.
    assert (inject_Z 5 <= inject_Z n ∧ inject_Z n <= inject_Z (maxPercent axis / 10))
      as [Hlo Hhi] by (rewrite <-!Zle_Qle; lia).
    change (inject_Z 5) with 5 in Hlo.
    unfold Qdiv. change (/ 10) with (1 # 10).
    destruct axis; simpl in *;
      [change (inject_Z (500 / 10)) with 50 in Hhi..
      |change (inject_Z (300 / 10)) with 30 in Hhi];
      generalize dependent (inject_Z n); intros; lra. }
  assert (∀ q (n : Z) x, (5 ≤ n ≤ maxPercent axis / 10)%Z →
            getScale axis (settings q) + x == inject_Z n / 10 →
            getScale axis (settings (adjustScale axis x q)) == inject_Z n / 10)
    as Hstep.
  { intros q n x Hn Hx. rewrite getScale_adjustScale.
    apply snap_tenth.
    destruct (clamp_spec (1 # 2) (maxScale axis) (getScale axis (settings q) + x))
      as (_ & _ & _ & Hmid); [destruct axis; simpl; lra|].
    rewrite Hmid; [done|]. rewrite Hx. by apply Hin. }
  assert (getScale axis (settings (adjustScale axis delta p))
          == inject_Z (k + j) / 10) as H1.
  { apply Hstep; [done|]. rewrite Hs, Hd, inject_Z_plus. field. }
  split; [done|]. rewrite Hs. apply Hstep; [done|].
  rewrite H1, Hd, inject_Z_plus. field.
Qed.

Lemma scales_unchanged (p p' : Plugin) :
  (∀ axis, getScale axis (settings p') = getScale axis (settings p) ∧
           getDefaultScale axis (settings p') = getDefaultScale axis (settings p)) →
  scalesInRange (settings p) → scalesInRange (settings p').
Proof. intros Heq Hr axis. destruct (Heq axis) as [-> ->]. apply Hr. Qed.

Lemma adjustScale_inRange axis delta p :
  scalesInRange (settings p) → scalesInRange (settings (adjustScale axis delta p)).
Proof.
  intros Hr axis'. rewrite getDefaultScale_adjustScale. split; [|apply Hr].
  destruct (decide (axis = axis')) as [<-|Hne].
  - apply adjustScale_range.
  - rewrite getScale_adjustScale_other by done. apply Hr.
Qed.

Lemma perform_inRange a p :
  scalesInRange (settings p) → scalesInRange (settings (perform a p)).
Proof.
  intros Hr. destruct a; simpl.
  - by apply adjustScale_inRange.
  - unfold onWheel. destruct (ctrlKey || metaKey); [|done].
    destruct shiftKey; by apply adjustScale_inRange.
  - intros axis. destruct (Hr axis) as [_ Hd]. by destruct axis.
  - apply (scales_unchanged p); [by intros []|done].
  - apply (scales_unchanged p); [by intros []|done].
  - apply (scales_unchanged p); [by intros []|done].
  - apply (scales_unchanged p); [by intros []|done].
  - apply (scales_unchanged p); [by intros []|done].
  - apply (scales_unchanged p); [by intros []|done].
  - apply (scales_unchanged p); [by intros []|done].
  - unfold onChangeWeekdayLabels. case_match; [|done].
    apply (scales_unchanged p); [by intros []|done].
  - unfold onChangeMonthLabels. case_match; [|done].
    apply (scales_unchanged p); [by intros []|done].
  - unfold onChangeDefaultScale. destruct (parseInt10 value) as [num|]; [|done].
    destruct (Z.leb_spec 50 num); [|done].
    destruct (Z.leb_spec num (maxPercent axis)); [|done]. simpl.
    intros axis'. split.
    + destruct (Hr axis') as [Hs _]. by destruct axis, axis'.
    + destruct (decide (axis = axis')) as [<-|Hne].
      * assert (getDefaultScale axis
                  (setDefaultScale axis (inject_Z num / 100) (settings p))
                = inject_Z num / 100) as -> by (by destruct axis).
        apply percent_range. lia.
      * destruct (Hr axis') as [_ Hd]. by destruct axis, axis'.
Qed.

(** Whatever the user does, the three scales and their three defaults stay
    in range (0.5 to 5, 0.5 to 3 for the font): the range holds for the
    default settings and every action of the view and of the settings tab
    keeps it. *)
Theorem scales_stay_in_range actions currentYear :
  scalesInRange (settings (performAll actions
                             (mkPlugin (DEFAULT_SETTINGS currentYear) None))) ∧
  ∀ p, scalesInRange (settings p) → scalesInRange (settings (performAll actions p)).
Proof.
  assert (∀ p, scalesInRange (settings p) →
               scalesInRange (settings (performAll actions p))) as Hall.
  { unfold performAll. induction actions as [|a actions IH]; intros p Hp; [done|].
    simpl. apply IH. by apply perform_inRange. }
  split; [|done]. apply Hall. intros axis. by destruct axis.
Qed.

Lemma perform_noop_or_saved a p :
  perform a p = p ∨ savedData (perform a p) = Some (settings (perform a p)).
Proof.
  destruct a; simpl; try (by right).
  - unfold onWheel. destruct (ctrlKey || metaKey); [|by left].
    right. by destruct shiftKey.
  - unfold onChangeWeekdayLabels. case_match; [by right|by left].
  - unfold onChangeMonthLabels. case_match; [by right|by left].
  - unfold onChangeDefaultScale. repeat case_match; (by right) || (by left).
Qed.

(** No change of the settings goes unsaved: every action either leaves the
    plugin as it was or ends with the saved data equal to the settings, so
    once they are equal they stay equal whatever the user does. *)
Theorem settings_always_saved actions p :
  (∀ a, perform a p = p ∨
        savedData (perform a p) = Some (settings (perform a p))) ∧
  (savedData p = Some (settings p) →
   savedData (performAll actions p) = Some (settings (performAll actions p))).
Proof.
  split; [intros a; apply perform_noop_or_saved|].
  revert p. unfold performAll.
  induction actions as [|a actions IH]; intros p Hp; [done|].
  simpl. apply IH. destruct (perform_noop_or_saved a p) as [->|H]; done.
Qed.

Lemma scale_step_round_trip_witness :
  getScale AxisFont
    (settings (adjustScale AxisFont (1 # 10) (mkPlugin (DEFAULT_SETTINGS 2024) None)))
    == inject_Z (10 + 1) / 10 ∧
  getScale AxisFont
    (settings (adjustScale AxisFont (- (1 # 10))
                 (adjustScale AxisFont (1 # 10)
                    (mkPlugin (DEFAULT_SETTINGS 2024) None))))
    == getScale AxisFont (settings (mkPlugin (DEFAULT_SETTINGS 2024) None)).
Proof.
  apply (scale_step_round_trip AxisFont 10 1 (1 # 10)
           (mkPlugin (DEFAULT_SETTINGS 2024) None)); by vm_compute.
Defined.

Example default_scale_inputs :
  parseInt10 "150" = Some 150%Z ∧ parseInt10 "  +200%" = Some 200%Z ∧
  parseInt10 "-5" = Some (-5)%Z ∧ parseInt10 "12.7" = Some 12%Z ∧
  parseInt10 "abc" = None ∧ parseInt10 "" = None ∧
  defaultFontScale
    (settings (onChangeDefaultScale AxisFont "450"
                 (mkPlugin (DEFAULT_SETTINGS 2024) None))) = 1.
Proof. by vm_compute. Qed.

End ControlFacts.

(** ** The sources of the dates *)

Module SourceFacts.
Import JSDate LinearCalendar ExtractorFacts SampleHost.

Lemma startsWith_append str searchString :
  JSString.startsWith str searchString = true ↔
  ∃ rest, str = searchString +:+ rest.
Proof.
  unfold JSString.startsWith. revert str.
  induction searchString as [|c p IH]; intros str.
  - split; [intros _; by exists str|]. intros _. by destruct str.
  - destruct str as [|c' str]; simpl.
    + split; [done|]. by intros (rest & Hrest).
    + destruct (Ascii.ascii_dec c c') as [<-|Hne].
      * rewrite IH. split; intros (rest & Hrest); exists rest.
        -- by rewrite Hrest.
        -- change (String c p +:+ rest) with (String c (p +:+ rest)) in Hrest.
           by injection Hrest.
      * split; [done|]. intros (rest & Hrest).
        change (String c p +:+ rest) with (String c (p +:+ rest)) in Hrest.
        injection Hrest as Hc _. by destruct Hne.
Qed.

Section Sources.
Variable host : Host.
Variable s : LinearCalendarSettings.

(** A note is a daily note exactly when its path begins with the text of
    the daily notes folder and its base name parses strictly against the
    format. The folder is compared as text: with the folder "Daily" a note
    of "Daily-archive" is a daily note too, and with an empty folder every
    note whose name parses is one. *)
Theorem daily_note_folder_prefix f d :
  (parseDailyNoteDate host s f = Some d ↔
   (∃ rest, path f = dailyNotesFolder s +:+ rest) ∧
   momentStrict host (basename f) (dailyNoteFormat s) = Some d) ∧
  (dailyNotesFolder s = "" →
   parseDailyNoteDate host s f
     = momentStrict host (basename f) (dailyNoteFormat s)).
Proof.
  unfold parseDailyNoteDate. cbv zeta. split.
  - rewrite <-startsWith_append.
    destruct (String.eqb_spec (dailyNotesFolder s) "") as [He|He]; simpl.
    + assert (JSString.startsWith (path f) (dailyNotesFolder s) = true) as ->
        by (rewrite He; unfold JSString.startsWith; by destruct (path f)).
      destruct (momentStrict _ _ _); split; try tauto; by intros [_ ?].
    + destruct (JSString.startsWith _ _); simpl.
      * destruct (momentStrict _ _ _); split; try tauto; by intros [_ ?].
      * split; [done|]. by intros [? _].
  - intros ->. simpl. by destruct (momentStrict _ _ _).
Qed.

Lemma field_date v d :
  truthy v = true ∧ parseDate host v = Some d ↔
  (∃ str, v = VString str ∧ str ≠ "" ∧ momentParse host str = Some d) ∨
  v = VDate d.
Proof.
  split.
  - intros [Ht Hp]. destruct v as [ | | b | n | str | d' | ]; simpl in *; try done.
    + left. exists str. split; [done|]. split.
      * intros ->. done.
      * by destruct (momentParse host str).
    + right. congruence.
  - intros [(str & -> & Hne & Hp)| ->]; simpl.
    + rewrite Hp. split; [|done].
      by destruct (String.eqb_spec str "").
    + done.
Qed.

(** Where the dates of a note come from: a date the extractor returns is
    the daily-note date, or the creation date standing alone, or the value
    of a configured frontmatter field that is either a non-empty string the
    date parser accepts or a date object. A field that is missing, empty, a
    number, a boolean, null or another object gives nothing, and so does
    every field of a note without frontmatter. *)
Theorem frontmatter_sources f d :
  d ∈ extractDatesFromFile host s f ↔
  parseDailyNoteDate host s f = Some d ∨
  (∃ cache fm field,
     getFileCache host f = Some cache ∧ frontmatter cache = Some fm ∧
     field ∈ dateFields s ∧
     ((∃ str, fm !! field = Some (VString str) ∧ str ≠ "" ∧
              momentParse host str = Some d) ∨
      fm !! field = Some (VDate d))) ∨
  (showFileCreationDates s = true ∧ sourceDates host s f = [] ∧
   d = newDateOfValue (stat_ctime f)).
Proof.
  rewrite extractDatesFromFile_sources, elem_of_app, elem_of_sourceDates.
  assert (∀ fm field v, property fm field = v → v ≠ VUndefined →
                        fm !! field = Some v) as Hprop.
  { intros fm field v <-. unfold property.
    by destruct (fm !! field). }
  split.
  - intros [[Hd|(cache & fm & field & Hc & Hfm & Hin & Ht & Hp)]|Hf].
    + by left.
    + right; left. exists cache, fm, field. split_and!; try done.
      destruct (proj1 (field_date _ _) (conj Ht Hp)) as [(str & Hv & Hne & Hm)|Hv].
      * left. exists str. split; [|done]. by apply Hprop.
      * right. by apply Hprop.
    + right; right.
      destruct (showFileCreationDates s); simpl in Hf;
        [|by apply elem_of_nil in Hf].
      case_bool_decide as He; [|by apply elem_of_nil in Hf].
      apply list_elem_of_singleton in Hf. done.
  - intros [Hd|[(cache & fm & field & Hc & Hfm & Hin & Hv)|(Hflag & He & ->)]].
    + left; by left.
    + left; right. exists cache, fm, field. split_and!; try done.
      * apply (field_date _ d). unfold property.
        destruct Hv as [(str & -> & Hne & Hm)| ->]; simpl; [left|by right].
        by exists str.
      * apply (field_date _ d). unfold property.
        destruct Hv as [(str & -> & Hne & Hm)| ->]; simpl; [left|by right].
        by exists str.
    + right. rewrite Hflag. simpl. rewrite bool_decide_eq_true_2 by done.
      by apply list_elem_of_singleton.
Qed.

End Sources.

End SourceFacts.
